(** * HTML2MD: the batch HTML-to-Markdown converter of [html2md.py]

    A shallow embedding of the converter and the properties of its
    configuration lookup, title derivation, retry loop, result
    reordering and command-line entry point.

    Conventions of the embedding.
    - Python [str] is [string]; a character is an [ascii], so texts are
      restricted to the code points 0..255.
    - Exceptions are values of [exn]; a computation that can raise
      returns a [result].
    - Durations and the float [st_mtime] are rationals ([Q]); only their
      order and sums matter.
    - The remote model, the file system, the terminal and the order in
      which tasks complete are read from a [world] record.  The
      asynchronous interrupt (Ctrl-C) and the [logging] calls are not
      modelled. *)

From Stdlib Require Import ZArith QArith Ascii String List Sorted Permutation.
From Stdlib Require Import Numbers.DecimalString.
From stdpp Require Import base option list gmap strings fin_maps.

Close Scope Q_scope.
Open Scope string_scope.
Open Scope list_scope.

(* ===================================================================== *)
(** * Python values and exceptions *)
(* ===================================================================== *)

(** The exceptions the program can meet.  [ApiError msg] is any
    exception raised by the remote call, [msg] being [str(e)]. *)
Inductive exn : Type :=
  | KeyError (key : string)
  | TypeError
  | ValueError
  | AttributeError
  | EOFError
  | OSError (msg : string)
  | ApiError (msg : string).

Inductive result (A : Type) : Type :=
  | Ok (a : A)
  | Raise (e : exn).
Arguments Ok {A} a.
Arguments Raise {A} e.

Definition rbind {A B} (r : result A) (k : A -> result B) : result B :=
  match r with
  | Ok a => k a
  | Raise e => Raise e
  end.

(** [v] when there is one, [d] otherwise. *)
Definition default_or {A} (o : option A) (d : A) : A :=
  match o with
  | Some v => v
  | None => d
  end.

Definition ok_of {A} (r : result A) : option A :=
  match r with
  | Ok a => Some a
  | Raise _ => None
  end.

(** What [json.load] returns. *)
#[local] Unset Elimination Schemes.
Inductive json : Type :=
  | JNull
  | JBool (b : bool)
  | JInt (z : Z)
  | JFloat (q : Q)
  | JStr (s : string)
  | JArr (l : list json)
  | JObj (m : gmap string json).
#[local] Set Elimination Schemes.

(* ===================================================================== *)
(** * String primitives of Python used by the program *)
(* ===================================================================== *)

Module Py.

Definition chr (n : nat) : ascii := ascii_of_nat n.

(** [str.isspace] for one character, on the code points 0..255:
    TAB LF VT FF CR, FS GS RS US, SPACE, NEL and NBSP.  The class [\s]
    of [re] on [str] patterns is the same set. *)
Definition isspace (c : ascii) : bool :=
  let n := nat_of_ascii c in
  (((9 <=? n) && (n <=? 13)) || ((28 <=? n) && (n <=? 32))
   || (n =? 133) || (n =? 160))%nat.

(** [s.replace(a, b)] for single characters. *)
Fixpoint replace (a b : ascii) (s : string) : string :=
  match s with
  | EmptyString => EmptyString
  | String c s' => String (if Ascii.eqb c a then b else c) (replace a b s')
  end.

(** [c in chars]. *)
Fixpoint mem (c : ascii) (chars : string) : bool :=
  match chars with
  | EmptyString => false
  | String d chars' => Ascii.eqb c d || mem c chars'
  end.

(** [re.sub('[chars]', '', s)]: delete every character of the class. *)
Fixpoint remove_chars (chars : string) (s : string) : string :=
  match s with
  | EmptyString => EmptyString
  | String c s' =>
      if mem c chars then remove_chars chars s'
      else String c (remove_chars chars s')
  end.

(** [s.lstrip()], [s.rstrip()] and [s.strip()]. *)
Fixpoint lstrip (s : string) : string :=
  match s with
  | EmptyString => EmptyString
  | String c s' => if isspace c then lstrip s' else s
  end.

Fixpoint rstrip (s : string) : string :=
  match s with
  | EmptyString => EmptyString
  | String c s' =>
      match rstrip s' with
      | EmptyString => if isspace c then EmptyString else String c EmptyString
      | r => String c r
      end
  end.

Definition strip (s : string) : string := rstrip (lstrip s).

(** [re.sub(r'\s+', ' ', s)]: every maximal run of whitespace becomes
    one space. *)
Fixpoint collapse_from (in_run : bool) (s : string) : string :=
  match s with
  | EmptyString => EmptyString
  | String c s' =>
      if isspace c
      then (if in_run then collapse_from true s'
            else String " " (collapse_from true s'))
      else String c (collapse_from false s')
  end.

Definition collapse_ws (s : string) : string := collapse_from false s.

(** [s.split(sep)] for a one-character separator: never empty. *)
Fixpoint split (sep : ascii) (s : string) : list string :=
  match s with
  | EmptyString => [EmptyString]
  | String c s' =>
      if Ascii.eqb c sep then EmptyString :: split sep s'
      else match split sep s' with
           | [] => [String c EmptyString]
           | w :: ws => String c w :: ws
           end
  end.

(** [s.rfind(c)]: index of the last occurrence, [None] for -1. *)
Fixpoint rfind (c : ascii) (s : string) : option nat :=
  match s with
  | EmptyString => None
  | String d s' =>
      match rfind c s' with
      | Some i => Some (S i)
      | None => if Ascii.eqb d c then Some O else None
      end
  end.

(** [s[:n]] and [s[n:]] for [0 <= n]. *)
Fixpoint take (n : nat) (s : string) : string :=
  match n, s with
  | S n', String c s' => String c (take n' s')
  | _, _ => EmptyString
  end.

Fixpoint drop (n : nat) (s : string) : string :=
  match n, s with
  | S n', String _ s' => drop n' s'
  | _, _ => s
  end.

(** [s.startswith(p)]. *)
Fixpoint startswith (p s : string) : bool :=
  match p, s with
  | EmptyString, _ => true
  | String a p', String b s' => Ascii.eqb a b && startswith p' s'
  | String _ _, EmptyString => false
  end.

(** [needle in hay]. *)
Fixpoint contains (needle hay : string) : bool :=
  startswith needle hay ||
  match hay with
  | EmptyString => false
  | String _ hay' => contains needle hay'
  end.

(** [str(n)] for an [int]. *)
Definition str_of_Z (z : Z) : string := NilZero.string_of_int (Z.to_int z).
Definition str_of_nat (n : nat) : string := str_of_Z (Z.of_nat n).

(** [c.isdigit()] on 0..255 and the value of a decimal digit. *)
Definition isdigit (c : ascii) : bool :=
  let n := nat_of_ascii c in ((48 <=? n) && (n <=? 57))%nat.

Definition digit_val (c : ascii) : Z := Z.of_nat (nat_of_ascii c) - 48.

(** [int(ds)] for a string of decimal digits. *)
Definition int_of_digits (ds : string) : Z :=
  fold_left (fun acc c => 10 * acc + digit_val c)%Z (list_ascii_of_string ds) 0%Z.

(** The longest prefix of decimal digits, and what follows it. *)
Fixpoint span_digits (s : string) : string * string :=
  match s with
  | String c s' =>
      if isdigit c
      then let '(ds, rest) := span_digits s' in (String c ds, rest)
      else (EmptyString, s)
  | EmptyString => (EmptyString, EmptyString)
  end.

End Py.

(* ===================================================================== *)
(** * Configuration ([class Config]) *)
(* ===================================================================== *)

Module Config.

(** [isinstance(value, dict) and k in value]. *)
Definition has_key (value : json) (k : string) : bool :=
  match value with
  | JObj m => bool_decide (is_Some (m !! k))
  | _ => false
  end.

(** [value[k]] for a string [k]: a missing key of a mapping raises
    [KeyError]; a value that is not a mapping raises [TypeError]. *)
Definition getitem (value : json) (k : string) : result json :=
  match value with
  | JObj m =>
      match m !! k with
      | Some v => Ok v
      | None => Raise (KeyError k)
      end
  | _ => Raise TypeError
  end.

(** The loop of [Config.get] over the segments of the key. *)
Fixpoint get_loop (value : json) (keys : list string) (default : json)
  : result json :=
  match keys with
  | [] => Ok value
  | k :: keys' =>
      if has_key value k
      then rbind (getitem value k) (fun v => get_loop v keys' default)
      else Ok default
  end.

(** [Config.get(key, default)] on the loaded document [config]. *)
Definition get (config : json) (key : string) (default : json) : result json :=
  get_loop config (Py.split "." key) default.

(** The traversal in the words of the specification: follow the nested
    mappings segment by segment; there is no value when a segment is
    missing or when an intermediate value is not a mapping. *)
Fixpoint traverse (value : json) (segments : list string) : option json :=
  match segments with
  | [] => Some value
  | k :: rest =>
      match value with
      | JObj m =>
          match m !! k with
          | Some v => traverse v rest
          | None => None
          end
      | _ => None
      end
  end.

End Config.

(* ===================================================================== *)
(** * Paths ([pathlib.PurePosixPath] and [posixpath]) *)
(* ===================================================================== *)

Module Path.

(** The parts of a path: the components between slashes, without the
    empty ones and without ["."]. *)
Definition parts (p : string) : list string :=
  List.filter (fun x => negb (String.eqb x "" || String.eqb x "."))
              (Py.split "/" p).

(** [Path(p).name]: the last part, or the empty string. *)
Definition name (p : string) : string := List.last (parts p) "".

(** [Path(p).stem]: the name without its last suffix ([i = name.rfind('.')];
    the suffix is dropped when [0 < i < len(name) - 1]). *)
Definition stem (p : string) : string :=
  let name := name p in
  match Py.rfind "." name with
  | Some i =>
      if ((0 <? i) && (i + 1 <? String.length name))%nat
      then Py.take i name else name
  | None => name
  end.

(** [head.rstrip('/')]. *)
Fixpoint rstrip_slash (s : string) : string :=
  match s with
  | EmptyString => EmptyString
  | String c s' =>
      match rstrip_slash s' with
      | EmptyString => if Ascii.eqb c "/" then EmptyString else String c EmptyString
      | r => String c r
      end
  end.

(** [os.path.dirname(p)]. *)
Definition dirname (p : string) : string :=
  let head :=
    match Py.rfind "/" p with
    | Some i => Py.take (i + 1) p
    | None => EmptyString
    end in
  match rstrip_slash head with
  | EmptyString => head
  | stripped => stripped
  end.

(** [s.endswith('/')]. *)
Fixpoint ends_with_slash (s : string) : bool :=
  match s with
  | EmptyString => false
  | String c EmptyString => Ascii.eqb c "/"
  | String _ s' => ends_with_slash s'
  end.

(** [os.path.join(a, b)]. *)
Definition join (a b : string) : string :=
  if Py.startswith "/" b then b
  else if String.eqb a "" || ends_with_slash a then a ++ b
  else a ++ "/" ++ b.

End Path.

(* ===================================================================== *)
(** * Library functions taken as given *)
(* ===================================================================== *)

(** [html.unescape] of the standard library and the BeautifulSoup
    pipeline of [HTMLProcessor.clean_html] (parse, remove the configured
    tags, the comments and the [style] attributes, serialise). *)
Class Externals : Type := {
  unescape : string -> string;
  clean_html : list string -> string -> string;
}.

(** [html.unescape] begins with [if '&' not in s: return s]. *)
Definition unescape_plain `{Externals} : Prop :=
  forall s : string, Py.mem "&" s = false -> unescape s = s.

(** A stand-in for [html.unescape] that decodes the five references
    [&amp;] [&lt;] [&gt;] [&quot;] [&apos;] and nothing else: it agrees
    with the library on every text in which each ['&'] begins one of
    them, in particular on every text without ['&'].  [skip] counts the
    characters of a reference still to be dropped. *)
Fixpoint decode_refs (skip : nat) (s : string) : string :=
  match s with
  | EmptyString => EmptyString
  | String c s' =>
      match skip with
      | S k => decode_refs k s'
      | O =>
          if Py.startswith "&amp;" s then String "&" (decode_refs 4 s')
          else if Py.startswith "&lt;" s then String "<" (decode_refs 3 s')
          else if Py.startswith "&gt;" s then String ">" (decode_refs 3 s')
          else if Py.startswith "&quot;" s then String "034" (decode_refs 5 s')
          else if Py.startswith "&apos;" s then String "'" (decode_refs 5 s')
          else String c (decode_refs 0 s')
      end
  end.

(** The instance used to evaluate concrete runs; markup is left as it is. *)
#[global] Instance plain_externals : Externals := {|
  unescape := decode_refs 0;
  clean_html := fun _ html_content => html_content;
|}.

(* ===================================================================== *)
(** * Content cleaner ([class HTMLProcessor]) *)
(* ===================================================================== *)

(** The character class of the pattern in [clean_filename]: less-than,
    greater-than, colon, double quote, slash, backslash, bar, question
    mark and star. *)
Definition special_chars : string := "<>:" ++ String "034" "/\|?*".

(** [HTMLProcessor.clean_filename]. *)
Definition clean_filename `{Externals} (filename : string) : string :=
  let name := Path.stem filename in
  let name := Py.replace "_" " " name in
  let name := unescape name in
  let name := Py.remove_chars special_chars name in
  let name := Py.strip (Py.collapse_ws name) in
  name.

(** A name that needs no cleaning: no dot, underscore, ampersand or
    character of the class, and no whitespace other than single spaces
    between words. *)
Definition plain_char (c : ascii) : bool :=
  negb (Py.mem c special_chars || Py.mem c "._&" || Py.isspace c).

Fixpoint clean_tail (after_space : bool) (s : string) : bool :=
  match s with
  | EmptyString => negb after_space
  | String c s' =>
      if Ascii.eqb c " " then negb after_space && clean_tail true s'
      else plain_char c && clean_tail false s'
  end.

Definition already_clean (s : string) : bool := clean_tail true s || String.eqb s "".

(* ===================================================================== *)
(** * Effects *)
(* ===================================================================== *)

(** What a run does to the outside, in the order in which it does it. *)
Inductive event : Type :=
  | Acquire                               (* async with self.rate_limiter *)
  | ApiCall                               (* one generate_content request *)
  | Sleep (d : Q)                         (* await asyncio.sleep(d) *)
  | Print (line : string)                 (* print(line) *)
  | PrintError (e : exn)                  (* print(f"Error: {e}") *)
  | Write (path : string) (text : string) (* the output file after close *).

(** A computation: the events it performs, then a value or an exception. *)
Definition io (A : Type) : Type := (list event * result A)%type.

#[global] Instance io_ret : MRet io := fun A a => ([], Ok a).

#[global] Instance io_bind : MBind io := fun A B k m =>
  match m with
  | (t, Ok a) => let '(t', r) := k a in (t ++ t', r)
  | (t, Raise e) => (t, Raise e)
  end.

Definition emit (e : event) : io unit := ([e], Ok tt).
Definition raise {A} (e : exn) : io A := ([], Raise e).
Definition lift {A} (r : result A) : io A := ([], r).

(** [try: body except Exception as e: handler(e)]. *)
Definition try_except {A} (body : io A) (handler : exn -> io A) : io A :=
  match body with
  | (t, Ok a) => (t, Ok a)
  | (t, Raise e) => let '(t', r) := handler e in (t ++ t', r)
  end.

Definition events {A} (m : io A) : list event := fst m.
Definition outcome {A} (m : io A) : result A := snd m.

Definition is_call (e : event) : bool :=
  match e with ApiCall => true | _ => false end.
Definition is_acquire (e : event) : bool :=
  match e with Acquire => true | _ => false end.

(** The durations slept, in order. *)
Definition sleeps (t : list event) : list Q :=
  omap (fun e => match e with Sleep d => Some d | _ => None end) t.

(** The lines printed, in order, and the file written, if any. *)
Definition stdout (t : list event) : list string :=
  omap (fun e => match e with Print l => Some l | _ => None end) t.
Definition writes (t : list event) : list (string * string) :=
  omap (fun e => match e with Write p s => Some (p, s) | _ => None end) t.
Definition written (t : list event) : option (string * string) :=
  List.last (map Some (writes t)) None.

(** The events of a conversion task: permits, requests and sleeps. *)
Definition is_remote_event (e : event) : bool :=
  match e with
  | Acquire | ApiCall | Sleep _ => true
  | _ => false
  end.

(* ===================================================================== *)
(** * Remote conversion client ([class GeminiAPIClient]) *)
(* ===================================================================== *)

(** One answer of the remote model: the text of the response, or an
    exception whose [str] is [error_str]. *)
Inductive reply : Type :=
  | Text (text : string)
  | Fails (error_str : string).

(** The fields of the client read by [convert_html_to_markdown]. *)
Record client : Type := {
  max_retries : Z;
  retry_delay_base : Q;
  rate_limit : Z;
}.

(** [re.search("'retryDelay': '(\d+)s'", error_str)] followed by
    [int(group(1))]: the leftmost place where the key is followed by at
    least one digit and then by [s']. *)
Definition retry_key : string := "'retryDelay': '".

Definition match_retry_at (s : string) : option Z :=
  if Py.startswith retry_key s then
    let '(ds, rest) := Py.span_digits (Py.drop (String.length retry_key) s) in
    if negb (String.eqb ds "") && Py.startswith "s'" rest
    then Some (Py.int_of_digits ds) else None
  else None.

Fixpoint search_retry_delay (error_str : string) : option Z :=
  match match_retry_at error_str with
  | Some d => Some d
  | None =>
      match error_str with
      | EmptyString => None
      | String _ rest => search_retry_delay rest
      end
  end.

(** The delay suggested by the server, when the failure is a 429 with
    RESOURCE_EXHAUSTED that carries one. *)
Definition suggested_delay (error_str : string) : option Z :=
  if Py.contains "429" error_str && Py.contains "RESOURCE_EXHAUSTED" error_str
  then search_retry_delay error_str else None.

(** [GeminiAPIClient._make_api_call]: on failure, sleep the suggested
    delay when there is one, then re-raise. *)
Definition make_api_call (remote : string -> reply) (prompt : string) : io string :=
  emit ApiCall ;;
  match remote prompt with
  | Text text => mret text
  | Fails error_str =>
      match suggested_delay error_str with
      | Some retry_delay => emit (Sleep (inject_Z retry_delay))
      | None => mret tt
      end ;;
      raise (ApiError error_str)
  end.

(** [range(n)]. *)
Definition range (n : Z) : list nat := seq 0 (Z.to_nat n).

(** [self.retry_delay_base * (2 ** attempt)]. *)
Definition backoff (c : client) (attempt : nat) : Q :=
  (retry_delay_base c * inject_Z (2 ^ Z.of_nat attempt))%Q.

(** The [for attempt in range(self.max_retries)] loop.  [remote attempt]
    answers the call of that attempt.  When the loop ends without
    returning, the Python function returns [None]. *)
Fixpoint attempts (c : client) (remote : nat -> string -> reply)
    (prompt : string) (todo : list nat) : io (option string) :=
  match todo with
  | [] => mret None
  | attempt :: todo' =>
      try_except
        (response ← make_api_call (remote attempt) prompt; mret (Some response))
        (fun e =>
           if (Z.of_nat attempt <? max_retries c - 1)%Z
           then emit (Sleep (backoff c attempt)) ;;
                attempts c remote prompt todo'
           else raise e)
  end.

Definition nl : string := String "010" EmptyString.
Definition dq : string := String "034" EmptyString.

(** The instruction text placed before the cleaned markup. *)
Definition prompt_lines : list string := [
  "Convert this HTML content to clean markdown format. ";
  "";
  "Guidelines:";
  "- Focus on the main content, ignore navigation and UI elements";
  "- Start directly with the main content - skip metadata";
  ("- Use hashtags for headings (e.g. " ++ dq ++ "## Description" ++ dq ++ ", "
    ++ dq ++ "## Solution" ++ dq ++ ", " ++ dq ++ "## Tests" ++ dq ++ ", "
    ++ dq ++ "## Library" ++ dq ++ ", etc.), do NOT use a single hashtag")%string;
  "- Preserve the structure and formatting of the content";
  "- Convert HTML elements to appropriate markdown equivalents";
  "- Do NOT use horizontal rules (---) in your output";
  "- Keep code blocks, tables, and other structured content intact";
  "- Remove any advertisements, navigation, or non-content elements";
  "";
  "HTML Content:"
].

Definition make_prompt (html_content : string) : string :=
  fold_right (fun line rest => (line ++ nl ++ rest)%string) html_content prompt_lines.

(** [GeminiAPIClient.convert_html_to_markdown]: one permit of the rate
    limiter is taken, and the whole retry loop runs under it. *)
Definition convert_html_to_markdown (c : client)
    (remote : nat -> string -> reply) (html_content filename : string)
  : io (option string) :=
  let prompt := make_prompt html_content in
  emit Acquire ;;
  attempts c remote prompt (range (max_retries c)).

(** What a failed attempt leaves in the trace: the request, the wait
    asked by the server if any, and the backoff unless the attempt was
    the last one. *)
Definition error_of (r : reply) : string :=
  match r with
  | Fails error_str => error_str
  | Text _ => EmptyString
  end.

Definition is_failure (r : reply) : bool :=
  match r with
  | Fails _ => true
  | Text _ => false
  end.

Definition server_wait (error_str : string) : list event :=
  match suggested_delay error_str with
  | Some retry_delay => [Sleep (inject_Z retry_delay)]
  | None => []
  end.

Definition failed_attempt (c : client) (error_str : string) (attempt : nat)
  : list event :=
  ApiCall :: server_wait error_str
    ++ (if (Z.of_nat attempt <? max_retries c - 1)%Z
        then [Sleep (backoff c attempt)] else []).

(** The events of the failed attempts [a], ..., [a + n - 1]. *)
Definition failed_run (c : client) (remote : nat -> string -> reply)
    (prompt : string) (a n : nat) : list event :=
  flat_map (fun k => failed_attempt c (error_of (remote k prompt)) k) (seq a n).

(** The times at which the requests of a trace start, on a clock that
    reads [now] at the first event, advances by [d] over [Sleep d] and by
    [latency k] over the [k]-th request. *)
Fixpoint call_times (latency : nat -> Q) (k : nat) (now : Q) (t : list event)
  : list Q :=
  match t with
  | [] => []
  | ApiCall :: t' => now :: call_times latency (S k) (now + latency k)%Q t'
  | Sleep d :: t' => call_times latency k (now + d)%Q t'
  | _ :: t' => call_times latency k now t'
  end.

(** How many of the given start times fall in the window of 60 seconds
    that opens at [t0]. *)
Definition calls_in_window (times : list Q) (t0 : Q) : nat :=
  length (List.filter (fun x => Qle_bool t0 x && negb (Qle_bool (t0 + 60)%Q x)) times).

(* ===================================================================== *)
(** * The environment of a run *)
(* ===================================================================== *)

Inductive config_load : Type :=
  | NotFound                (* FileNotFoundError *)
  | InvalidJson             (* json.JSONDecodeError *)
  | Loaded (config : json).

(** Everything a run reads from outside.  [glob_html d] lists the regular
    files of [d] matching [*.html] in the order of the directory listing,
    each as [(str(file_path), st_mtime)].  [remote i k prompt] answers the
    [k]-th request of the task of index [i].  [completion] is the order in
    which [asyncio.as_completed] yields the tasks. *)
Record world : Type := {
  config_file : string -> config_load;
  logging_error : option exn;
  getenv_api_key : option string;
  dir_exists : string -> bool;
  glob_html : string -> list (string * Q);
  path_exists : string -> bool;
  stdin : list string;
  clock : Z;
  read_text : string -> result string;
  remote : nat -> nat -> string -> reply;
  completion : list nat;
}.

(* ===================================================================== *)
(** * Orchestrator ([class HTML2MDConverter]) *)
(* ===================================================================== *)

(** The converter after [__init__].  [separator] and [add_headers] are
    read from the configuration when the output is generated; the
    configuration does not change in between. *)
Record converter : Type := {
  remove_tags : list string;
  api_client : client;
  max_concurrent : Z;
  separator : string;
  add_headers : bool;
}.

(** A discovered file [(path, mtime)] and a conversion result
    [(title, markdown)]; the markdown is [None] when the conversion
    returned Python's [None]. *)
Abbreviation file_entry := (string * Q)%type.
Abbreviation conversion := (string * option string)%type.

(** [html_files.sort(key=lambda x: x[1])]: [list.sort] is stable, and so
    is insertion from the right. *)
Fixpoint insert_by_mtime (x : file_entry) (l : list file_entry) : list file_entry :=
  match l with
  | [] => [x]
  | y :: l' =>
      if Qle_bool (snd x) (snd y) then x :: l else y :: insert_by_mtime x l'
  end.

Definition sort_by_mtime (l : list file_entry) : list file_entry :=
  fold_right insert_by_mtime [] l.

(** [HTML2MDConverter.discover_html_files]. *)
Definition discover_html_files (w : world) (directory : string) : list file_entry :=
  if dir_exists w directory then sort_by_mtime (glob_html w directory) else [].

(** The [while True] loop of [check_output_file] over the lines typed by
    the user; [input] raises [EOFError] when there is none left. *)
Fixpoint ask_choice (output_path : string) (timestamp : Z) (inputs : list string)
  : io (option string) :=
  match inputs with
  | [] => raise EOFError
  | line :: inputs' =>
      let choice := Py.strip line in
      if String.eqb choice "1" then mret (Some output_path)
      else if String.eqb choice "2" then
        let base_dir := Path.dirname output_path in
        let new_name :=
          (Path.stem output_path ++ "_" ++ Py.str_of_Z timestamp ++ ".md")%string in
        mret (Some (Path.join base_dir new_name))
      else if String.eqb choice "3" then
        emit (Print "Operation cancelled.") ;; mret None
      else
        emit (Print "Invalid choice. Please enter 1, 2, or 3.") ;;
        ask_choice output_path timestamp inputs'
  end.

(** The answers that end the loop of [check_output_file]. *)
Definition valid_choice (line : string) : bool :=
  let choice := Py.strip line in
  String.eqb choice "1" || String.eqb choice "2" || String.eqb choice "3".

Definition is_print (e : event) : bool :=
  match e with
  | Print _ => true
  | _ => false
  end.

(** [HTML2MDConverter.check_output_file]: the path to write to, or
    [None] when the user cancels. *)
Definition check_output_file (w : world) (output_path : string) : io (option string) :=
  if path_exists w output_path then
    emit (Print ("Output file '" ++ output_path ++ "' already exists.")%string) ;;
    emit (Print "Options:") ;;
    emit (Print "1. Overwrite existing file") ;;
    emit (Print "2. Append timestamp to create new file") ;;
    emit (Print "3. Cancel operation") ;;
    ask_choice output_path (clock w) (stdin w)
  else mret (Some output_path).

(** The title under which the result of a file is filed. *)
Definition title_of `{Externals} (file_path : string) : string :=
  clean_filename (Path.name file_path).

(** [HTML2MDConverter.process_file]; the semaphore only delays the task. *)
Definition process_file `{Externals} (cv : converter) (w : world)
    (file_path : string) (total_files current_index : nat) : io conversion :=
  let filename := Path.name file_path in
  html_content ← lift (read_text w file_path);
  let cleaned_html := clean_html (remove_tags cv) html_content in
  markdown_content ← convert_html_to_markdown (api_client cv)
                       (remote w current_index) cleaned_html filename;
  let clean_filename := clean_filename filename in
  mret (clean_filename, markdown_content).

(** The tasks of [convert_directory], one per discovered file. *)
Definition make_tasks `{Externals} (cv : converter) (w : world)
    (html_files : list file_entry) : list (io conversion) :=
  imap (fun i entry => process_file cv w (fst entry) (length html_files) i)
       html_files.

(** The [for coro in asyncio.as_completed(tasks)] loop.  The events of a
    task are listed together where the task completes. *)
Fixpoint collect (tasks : list (io conversion)) (total : nat) (order : list nat)
    (processed_files : list conversion) (completed : nat) : io (list conversion) :=
  match order with
  | [] => mret processed_files
  | i :: order' =>
      match tasks !! i with
      | None => collect tasks total order' processed_files completed
      | Some coro =>
          outcome ← try_except (result ← coro; mret (Some result))
                               (fun _ => mret None);
          match outcome with
          | Some result =>
              let completed := S completed in
              emit (Print ("Completed " ++ fst result ++ " ("
                           ++ Py.str_of_nat completed ++ "/"
                           ++ Py.str_of_nat total ++ ")")%string) ;;
              collect tasks total order' (processed_files ++ [result]) completed
          | None => collect tasks total order' processed_files completed
          end
      end
  end.

(** The results gathered by the loop, in the order of completion, and
    the results of the tasks in the order of the tasks. *)
Definition result_of (task : io conversion) : option conversion :=
  ok_of (outcome task).

Definition completed_results (tasks : list (io conversion)) (order : list nat)
  : list conversion :=
  omap (fun i => tasks !! i ≫= result_of) order.

Definition own_results (tasks : list (io conversion)) : list conversion :=
  omap result_of tasks.

(** [{result[0]: result for result in processed_files}]: a later result
    replaces an earlier one with the same title. *)
Definition file_to_result (processed_files : list conversion)
  : gmap string conversion :=
  fold_left (fun m result => <[fst result := result]> m) processed_files ∅.

(** The reordering loop of [convert_directory]. *)
Definition ordered_results `{Externals} (html_files : list file_entry)
    (processed_files : list conversion) : list conversion :=
  omap (fun entry => file_to_result processed_files !! title_of (fst entry))
       html_files.

(** The list handed to [generate_output] by [convert_directory]. *)
Definition final_results `{Externals} (cv : converter) (w : world)
    (directory : string) : list conversion :=
  let html_files := discover_html_files w directory in
  ordered_results html_files
    (completed_results (make_tasks cv w html_files) (completion w)).

(** The order of discovery: ascending modification times. *)
Definition mtime_le (a b : file_entry) : Prop := (snd a <= snd b)%Q.

(** The text written by the loop of [generate_output] from index [i]
    on; [content.strip()] raises [AttributeError] on [None], after the
    header of that section has been written. *)
Fixpoint write_results (cv : converter) (total i : nat) (results : list conversion)
  : string * result unit :=
  match results with
  | [] => (EmptyString, Ok tt)
  | (filename, content) :: results' =>
      let header :=
        if add_headers cv then ("# " ++ filename ++ nl ++ nl)%string
        else EmptyString in
      match content with
      | None => (header, Raise AttributeError)
      | Some content =>
          let sep :=
            if (Z.of_nat i <? Z.of_nat total - 1)%Z
            then (separator cv ++ nl ++ nl)%string else EmptyString in
          let '(rest, r) := write_results cv total (S i) results' in
          ((header ++ Py.strip content ++ nl ++ nl ++ sep ++ rest)%string, r)
      end
  end.

(** [HTML2MDConverter.generate_output]. *)
Definition generate_output (cv : converter) (results : list conversion)
    (output_path : string) : io unit :=
  let '(text, r) := write_results cv (length results) 0 results in
  ([Write output_path text], r).

(** [HTML2MDConverter.convert_directory]. *)
Definition convert_directory `{Externals} (cv : converter) (w : world)
    (directory output_file : string) : io unit :=
  let html_files := discover_html_files w directory in
  match html_files with
  | [] => emit (Print "No HTML files found in the directory.")
  | _ :: _ =>
      output_path ← check_output_file w (Path.join directory output_file);
      match output_path with
      | None => mret tt
      | Some output_path =>
          let total := length html_files in
          emit (Print ("Processing " ++ Py.str_of_nat total
                       ++ " HTML files...")%string) ;;
          let tasks := make_tasks cv w html_files in
          processed_files ← collect tasks total (completion w) [] 0;
          let ordered_results := ordered_results html_files processed_files in
          generate_output cv ordered_results output_path ;;
          emit (Print ("Conversion completed! Output saved to: "
                       ++ output_path)%string) ;;
          emit (Print ("Successfully processed "
                       ++ Py.str_of_nat (length ordered_results) ++ " out of "
                       ++ Py.str_of_nat total ++ " files.")%string)
      end
  end.

(* ===================================================================== *)
(** * Command line ([main]) *)
(* ===================================================================== *)

(** The namespace returned by [parser.parse_args()]. *)
Record args : Type := {
  directory : string;
  api_key : option string;
  config : string;
  concurrent : option Z;
  log_level : option string;
  output : string;
}.

(** [value[k] = v] for a string [k]: only a mapping accepts it. *)
Definition setitem (value : json) (k : string) (v : json) : result json :=
  match value with
  | JObj m => Ok (JObj (<[k := v]> m))
  | _ => Raise TypeError
  end.

(** [config.config['processing']['max_concurrent'] = n]: the inner
    mapping is fetched, then updated in place. *)
Definition set_max_concurrent (config : json) (n : Z) : result json :=
  rbind (Config.getitem config "processing") (fun processing =>
  rbind (setitem processing "max_concurrent" (JInt n)) (fun processing' =>
  setitem config "processing" processing')).

(** [if args.concurrent: ...]: [None] and [0] are false. *)
Definition override_config (a : args) (config : json) : result json :=
  match concurrent a with
  | Some n => if (n =? 0)%Z then Ok config else set_max_concurrent config n
  | None => Ok config
  end.

(** Values of the types the converter expects. *)
Definition as_int (v : json) : option Z :=
  match v with JInt z => Some z | _ => None end.
Definition as_number (v : json) : option Q :=
  match v with JInt z => Some (inject_Z z) | JFloat q => Some q | _ => None end.
Definition as_str (v : json) : option string :=
  match v with JStr s => Some s | _ => None end.
Definition as_bool (v : json) : option bool :=
  match v with JBool b => Some b | _ => None end.
Definition as_str_list (v : json) : option (list string) :=
  match v with JArr l => mapM as_str l | _ => None end.

(** [HTML2MDConverter.__init__] with the [__init__] of its parts: the
    settings are read with [Config.get] and the defaults of the source.
    [asyncio.Semaphore] refuses a negative value.  The result is [None]
    when a setting has another type than the one expected (an integer, a
    number, a string, a boolean, a list of strings): such runs are not
    described. *)
Definition new_converter (config : json) : result (option converter) :=
  rbind (Config.get config "html_cleaning.remove_tags" (JArr [])) (fun tags =>
  rbind (Config.get config "gemini.max_retries" (JInt 3)) (fun retries =>
  rbind (Config.get config "gemini.retry_delay_base" (JFloat 1)) (fun base =>
  rbind (Config.get config "processing.rate_limit_per_minute" (JInt 875)) (fun rate =>
  rbind (Config.get config "processing.max_concurrent" (JInt 20)) (fun conc =>
  rbind (Config.get config "output.separator" (JStr "---")) (fun sep =>
  rbind (Config.get config "output.add_headers" (JBool true)) (fun headers =>
  match as_str_list tags, as_int retries, as_number base, as_int rate,
        as_int conc, as_str sep, as_bool headers with
  | Some tags, Some retries, Some base, Some rate, Some conc, Some sep, Some headers =>
      if (conc <? 0)%Z then Raise ValueError
      else Ok (Some {| remove_tags := tags;
                       api_client := {| max_retries := retries;
                                        retry_delay_base := base;
                                        rate_limit := rate |};
                       max_concurrent := conc;
                       separator := sep;
                       add_headers := headers |})
  | _, _, _, _, _, _, _ => Ok None
  end))))))).

(** How the process ends. *)
Inductive termination : Type :=
  | Returned                 (* main returns *)
  | SysExit (code : Z)       (* sys.exit(code) *)
  | Uncaught (e : exn)       (* traceback *)
  | NotModelled.

Definition exit_code (t : termination) : option Z :=
  match t with
  | Returned => Some 0%Z
  | SysExit code => Some code
  | Uncaught _ => Some 1%Z
  | NotModelled => None
  end.

(** [args.api_key or os.getenv('GEMINI_API_KEY')], then [if not api_key]. *)
Definition find_api_key (a : args) (w : world) : option string :=
  let chosen :=
    match api_key a with
    | Some k => if String.eqb k "" then getenv_api_key w else Some k
    | None => getenv_api_key w
    end in
  match chosen with
  | Some k => if String.eqb k "" then None else Some k
  | None => None
  end.

Inductive startup_result : Type :=
  | Stopped (t : list event) (status : termination)
  | Ready (config : json) (key : string) (cv : converter).

(** [main] up to the creation of the converter. *)
Definition startup (a : args) (w : world) : startup_result :=
  match config_file w (config a) with
  | NotFound | InvalidJson => Stopped [] (SysExit 1)
  | Loaded config =>
      match logging_error w with
      | Some e => Stopped [] (Uncaught e)
      | None =>
          match find_api_key a w with
          | None =>
              Stopped [Print "Error: API key required. Use --api-key or set GEMINI_API_KEY environment variable."]
                      (SysExit 1)
          | Some key =>
              match override_config a config with
              | Raise e => Stopped [] (Uncaught e)
              | Ok config' =>
                  match new_converter config' with
                  | Raise e => Stopped [] (Uncaught e)
                  | Ok None => Stopped [] NotModelled
                  | Ok (Some cv) => Ready config' key cv
                  end
              end
          end
      end
  end.

(** [main]: what the run does and how the process ends. *)
Definition main `{Externals} (a : args) (w : world) : list event * termination :=
  match startup a w with
  | Stopped t status => (t, status)
  | Ready _ _ cv =>
      match convert_directory cv w (directory a) (output a) with
      | (t, Ok _) => (t, Returned)
      | (t, Raise e) => (t ++ [PrintError e], SysExit 1)
      end
  end.

(* ===================================================================== *)
(** * Notions used to state further properties *)
(* ===================================================================== *)

(** One section of the output file: the optional header line, a blank
    line, the trimmed body and a blank line. *)
Definition section_header (cv : converter) (filename : string) : string :=
  if add_headers cv then ("# " ++ filename ++ nl ++ nl)%string else EmptyString.

Definition section_text (cv : converter) (result : string * string) : string :=
  (section_header cv (fst result) ++ Py.strip (snd result) ++ nl ++ nl)%string.

(** The separator line with its blank line. *)
Definition separator_text (cv : converter) : string :=
  (separator cv ++ nl ++ nl)%string.

(** A result whose conversion returned a text. *)
Definition with_body (result : string * string) : conversion :=
  (fst result, Some (snd result)).

(** The sum of a list of durations. *)
Definition total_time (l : list Q) : Q := fold_right Qplus 0%Q l.

(** A text in which every whitespace character is a space that stands
    alone between two other characters. *)
Fixpoint spaced_tail (after_space : bool) (s : string) : bool :=
  match s with
  | EmptyString => negb after_space
  | String c s' =>
      if Py.isspace c
      then Ascii.eqb c " " && negb after_space && spaced_tail true s'
      else spaced_tail false s'
  end.

(** The same without the conditions on the two ends of the text. *)
Fixpoint loosely_spaced (after_space : bool) (s : string) : bool :=
  match s with
  | EmptyString => true
  | String c s' =>
      if Py.isspace c
      then Ascii.eqb c " " && negb after_space && loosely_spaced true s'
      else loosely_spaced false s'
  end.

Definition single_spaced (s : string) : bool :=
  spaced_tail true s || String.eqb s "".

(** The message that answers an invalid choice at the prompt. *)
Definition invalid_line : event := Print "Invalid choice. Please enter 1, 2, or 3.".

(** The number of requests and of permits in a trace. *)
Definition count_calls (t : list event) : nat := length (List.filter is_call t).
Definition count_permits (t : list event) : nat := length (List.filter is_acquire t).

(* ===================================================================== *)
(** * Concrete clients, servers and directories used in the examples *)
(* ===================================================================== *)

(** A client with three attempts and a base delay of one second, and a
    remote model that always fails. *)
Definition three_attempts : client :=
  {| max_retries := 3; retry_delay_base := 1; rate_limit := 875 |}.

Definition always_down : nat -> string -> reply :=
  fun _ _ => Fails "503 UNAVAILABLE".

(** The answer of a server that asks for seven seconds, then a success. *)
Definition quota_error : string :=
  "429 RESOURCE_EXHAUSTED. {'error': {'details': [{'retryDelay': '7s'}]}}".

Definition quota_then_text : nat -> string -> reply :=
  fun k _ => match k with O => Fails quota_error | _ => Text "## Title" end.

(** A limit of one permit per minute, and a server that fails once. *)
Definition one_per_minute : client :=
  {| max_retries := 2; retry_delay_base := 1; rate_limit := 1 |}.

Definition down_then_text : nat -> string -> reply :=
  fun k _ => match k with O => Fails "503 UNAVAILABLE" | _ => Text "## Title" end.

(** The converter of an empty configuration: the defaults of the source. *)
Definition default_converter : converter :=
  {| remove_tags := [];
     api_client := {| max_retries := 3; retry_delay_base := 1; rate_limit := 875 |};
     max_concurrent := 20;
     separator := "---";
     add_headers := true |}.

(** A run in the directory [d]: an empty configuration, the API key in
    the environment, the given listing, answers, order of completion,
    state of the output path and lines typed at the prompt. *)
Definition directory_world (listing : list file_entry)
    (answers : nat -> nat -> string -> reply) (order : list nat)
    (output_exists : bool) (typed : list string) : world :=
  {| config_file := fun _ => Loaded (JObj ∅);
     logging_error := None;
     getenv_api_key := Some "key";
     dir_exists := fun _ => true;
     glob_html := fun _ => listing;
     path_exists := fun _ => output_exists;
     stdin := typed;
     clock := 1700000000;
     read_text := fun file_path => Ok ("<p>" ++ file_path ++ "</p>")%string;
     remote := answers;
     completion := order |}.

Definition plain_args : args :=
  {| directory := "d"; api_key := None; config := "config.json";
     concurrent := None; log_level := None; output := "output.md" |}.

(** Three files listed out of order, with modification times 1 < 2 < 3,
    whose tasks complete in the order third, first, second. *)
Definition three_files : world :=
  directory_world [("d/c.html", 3%Q); ("d/a.html", 1%Q); ("d/b.html", 2%Q)]
    (fun i _ _ => Text (nth i ["# A"; "# B"; "# C"] ""))
    [2; 0; 1] false [].


(** Three files with modification times 1 < 2 < 3, the first and the
    third of which have the same title; all are converted.  The tasks
    complete in the order of discovery, or in the order third, first,
    second. *)
Definition interleaved_listing : list file_entry :=
  [("d/a_b.html", 1%Q); ("d/c.html", 2%Q); ("d/a b.html", 3%Q)].

Definition interleaved_in_order : world :=
  directory_world interleaved_listing
    (fun i _ _ => Text (nth i ["R1"; "R2"; "R3"] "")) [0; 1; 2] false [].

Definition interleaved_reordered : world :=
  directory_world interleaved_listing
    (fun i _ _ => Text (nth i ["R1"; "R2"; "R3"] "")) [2; 0; 1] false [].

(** Two files whose names give the same title; both are converted. *)
Definition colliding_files : world :=
  directory_world [("d/a_b.html", 1%Q); ("d/a b.html", 2%Q)]
    (fun i _ _ => Text (nth i ["first"; "second"] ""))
    [0; 1] false [].

(** The same two files when every attempt on the first one fails. *)
Definition colliding_files_one_down : world :=
  directory_world [("d/a_b.html", 1%Q); ("d/a b.html", 2%Q)]
    (fun i _ _ => match i with O => Fails "503 UNAVAILABLE" | _ => Text "second" end)
    [1; 0] false [].

(** The output file exists and the user answers 3 at the prompt. *)
Definition cancelled_run : world :=
  directory_world [("d/a.html", 1%Q)] (fun _ _ _ => Text "# A") [0] true ["3"].


(** The three files when every attempt on the oldest one fails. *)
Definition three_files_one_down : world :=
  directory_world [("d/c.html", 3%Q); ("d/a.html", 1%Q); ("d/b.html", 2%Q)]
    (fun i _ _ => match i with
                  | O => Fails "503 UNAVAILABLE"
                  | _ => Text (nth i [""; "# B"; "# C"] "")
                  end)
    [2; 0; 1] false [].

(** One file, and a configuration that sets [gemini.max_retries] to 0. *)
Definition no_retries_world : world :=
  {| config_file := fun _ =>
       Loaded (JObj (<["gemini" := JObj (<["max_retries" := JInt 0]> ∅)]> ∅));
     logging_error := None;
     getenv_api_key := Some "key";
     dir_exists := fun _ => true;
     glob_html := fun _ => [("d/a.html", 1%Q)];
     path_exists := fun _ => false;
     stdin := [];
     clock := 1700000000;
     read_text := fun file_path => Ok ("<p>" ++ file_path ++ "</p>")%string;
     remote := fun _ _ _ => Text "# A";
     completion := [0] |}.

(** Tasks whose every request fails. *)
Definition always_down_tasks : nat -> nat -> string -> reply :=
  fun _ _ _ => Fails "503 UNAVAILABLE".

(** A configuration with an empty section [processing], and the command
    line [--concurrent 5]. *)
Definition tuned_world : world :=
  {| config_file := fun _ => Loaded (JObj (<["processing" := JObj ∅]> ∅));
     logging_error := None;
     getenv_api_key := Some "key";
     dir_exists := fun _ => true;
     glob_html := fun _ => [];
     path_exists := fun _ => false;
     stdin := [];
     clock := 1700000000;
     read_text := fun file_path => Ok file_path;
     remote := fun _ _ _ => Text "";
     completion := [] |}.

Definition tuned_args : args :=
  {| directory := "d"; api_key := Some ""; config := "config.json";
     concurrent := Some 5%Z; log_level := None; output := "output.md" |}.

(* ===================================================================== *)
(** * Properties of the configuration lookup *)
(* ===================================================================== *)

Lemma get_loop_traverse (keys : list string) : forall (value default : json),
  Config.get_loop value keys default =
  Ok (default_or (Config.traverse value keys) default).
Proof.
  induction keys as [|k keys IH]; intros value default; simpl.
  - reflexivity.
  - destruct value; simpl; try reflexivity.
    destruct (m !! k) as [v|] eqn:Hk.
    + rewrite bool_decide_eq_true_2 by eauto. simpl. apply IH.
    + rewrite bool_decide_eq_false_2 by (intros [? ?]; discriminate). reflexivity.
Qed.

(** C7.  [Config.get] never raises: it returns the value reached by
    following the segments of the dotted key through the nested
    mappings, and the caller's default as soon as a segment is missing
    or an intermediate value is not a mapping. *)
Theorem get_value_or_default (config : json) (key : string) (default : json) :
  Config.get config key default =
  Ok (default_or (Config.traverse config (Py.split "." key)) default).
Proof. unfold Config.get. apply get_loop_traverse. Qed.

(* ===================================================================== *)
(** * Properties of the derived title *)
(* ===================================================================== *)

Section CharFacts.

Lemma mem_remove_chars (chars : string) (c : ascii) (s : string) :
  Py.mem c chars = true -> Py.mem c (Py.remove_chars chars s) = false.
Proof.
  intros Hc. induction s as [|d s IH]; simpl; [reflexivity|].
  destruct (Py.mem d chars) eqn:Hd; [exact IH|]. simpl.
  destruct (Ascii.eqb c d) eqn:Hcd; [|exact IH].
  apply Ascii.eqb_eq in Hcd. congruence.
Qed.

Lemma mem_collapse_from (c : ascii) (s : string) : forall b,
  Py.mem c s = false -> c <> " "%char ->
  Py.mem c (Py.collapse_from b s) = false.
Proof.
  induction s as [|d s IH]; intros b Hs Hc; simpl; [reflexivity|].
  simpl in Hs. apply orb_false_iff in Hs as [Hd Hs].
  destruct (Py.isspace d), b; simpl; rewrite ?Hd; simpl; auto.
  rewrite (proj2 (Ascii.eqb_neq _ _) Hc). simpl. auto.
Qed.

Lemma mem_lstrip (c : ascii) (s : string) :
  Py.mem c s = false -> Py.mem c (Py.lstrip s) = false.
Proof.
  induction s as [|d s IH]; simpl; [reflexivity|]. intros Hs.
  destruct (Py.isspace d); [|exact Hs].
  apply orb_false_iff in Hs as [_ Hs]. auto.
Qed.

Lemma mem_rstrip (c : ascii) (s : string) :
  Py.mem c s = false -> Py.mem c (Py.rstrip s) = false.
Proof.
  induction s as [|d s IH]; simpl; [reflexivity|]. intros Hs.
  apply orb_false_iff in Hs as [Hd Hs]. specialize (IH Hs).
  destruct (Py.rstrip s) eqn:Hr.
  - destruct (Py.isspace d); simpl; [reflexivity|]. rewrite Hd. reflexivity.
  - simpl. rewrite Hd. exact IH.
Qed.

Lemma mem_strip (c : ascii) (s : string) :
  Py.mem c s = false -> Py.mem c (Py.strip s) = false.
Proof. intros Hs. unfold Py.strip. apply mem_rstrip, mem_lstrip, Hs. Qed.

Lemma special_not_space (c : ascii) :
  Py.mem c special_chars = true -> c <> " "%char.
Proof. intros Hc ->. vm_compute in Hc. discriminate. Qed.

(** Transformations that leave a text alone when it has nothing for
    them to do. *)
Lemma split_no_sep (sep : ascii) (s : string) :
  Py.mem sep s = false -> Py.split sep s = [s].
Proof.
  induction s as [|d s IH]; simpl; [reflexivity|]. intros Hs.
  apply orb_false_iff in Hs as [Hd Hs]. rewrite Ascii.eqb_sym, Hd, (IH Hs).
  reflexivity.
Qed.

Lemma rfind_absent (c : ascii) (s : string) :
  Py.mem c s = false -> Py.rfind c s = None.
Proof.
  induction s as [|d s IH]; simpl; [reflexivity|]. intros Hs.
  apply orb_false_iff in Hs as [Hd Hs]. rewrite (IH Hs), Ascii.eqb_sym, Hd.
  reflexivity.
Qed.

Lemma replace_absent (a b : ascii) (s : string) :
  Py.mem a s = false -> Py.replace a b s = s.
Proof.
  induction s as [|d s IH]; simpl; [reflexivity|]. intros Hs.
  apply orb_false_iff in Hs as [Hd Hs]. rewrite Ascii.eqb_sym, Hd, (IH Hs).
  reflexivity.
Qed.

Lemma remove_chars_none (chars s : string) :
  (forall c, Py.mem c chars = true -> Py.mem c s = false) ->
  Py.remove_chars chars s = s.
Proof.
  induction s as [|d s IH]; simpl; [reflexivity|]. intros Hs.
  destruct (Py.mem d chars) eqn:Hd.
  - specialize (Hs d Hd). simpl in Hs. rewrite Ascii.eqb_refl in Hs. discriminate.
  - f_equal. apply IH. intros c Hc. specialize (Hs c Hc). simpl in Hs.
    apply orb_false_iff in Hs as [_ Hs]. exact Hs.
Qed.

End CharFacts.

Section CleanNames.

Lemma clean_tail_mem (x : ascii) (s : string) : forall b,
  clean_tail b s = true -> plain_char x = false -> x <> " "%char ->
  Py.mem x s = false.
Proof.
  induction s as [|c s IH]; intros b Hs Hx Hsp; simpl; [reflexivity|].
  simpl in Hs. destruct (Ascii.eqb c " ") eqn:Hc.
  - apply Ascii.eqb_eq in Hc. subst c.
    apply andb_true_iff in Hs as [_ Hs].
    rewrite (proj2 (Ascii.eqb_neq _ _) Hsp). simpl. eauto.
  - apply andb_true_iff in Hs as [Hp Hs].
    destruct (Ascii.eqb x c) eqn:Hxc; simpl; [|eauto].
    apply Ascii.eqb_eq in Hxc. congruence.
Qed.

Lemma clean_tail_collapse (s : string) : forall b,
  clean_tail b s = true -> Py.collapse_from b s = s.
Proof.
  induction s as [|c s IH]; intros b Hs; simpl; [reflexivity|].
  simpl in Hs. destruct (Ascii.eqb c " ") eqn:Hc.
  - apply Ascii.eqb_eq in Hc. subst c.
    apply andb_true_iff in Hs as [Hb Hs]. destruct b; [discriminate|].
    change (Py.isspace " ") with true. cbv iota. f_equal. auto.
  - apply andb_true_iff in Hs as [Hp Hs].
    unfold plain_char in Hp. apply negb_true_iff, orb_false_iff in Hp as [_ Hp].
    rewrite Hp. f_equal. auto.
Qed.

Lemma clean_tail_lstrip (s : string) :
  clean_tail true s = true -> Py.lstrip s = s.
Proof.
  destruct s as [|c s]; simpl; [reflexivity|].
  destruct (Ascii.eqb c " ") eqn:Hc; [discriminate|]. intros Hs.
  apply andb_true_iff in Hs as [Hp _].
  unfold plain_char in Hp. apply negb_true_iff, orb_false_iff in Hp as [_ Hp].
  rewrite Hp. reflexivity.
Qed.

Lemma clean_tail_rstrip (s : string) : forall b,
  clean_tail b s = true -> Py.rstrip s = s.
Proof.
  induction s as [|c s IH]; intros b Hs; simpl; [reflexivity|].
  simpl in Hs. destruct (Ascii.eqb c " ") eqn:Hc.
  - apply andb_true_iff in Hs as [_ Hs]. rewrite (IH _ Hs).
    destruct s; [discriminate|reflexivity].
  - apply andb_true_iff in Hs as [Hp Hs]. rewrite (IH _ Hs).
    unfold plain_char in Hp. apply negb_true_iff, orb_false_iff in Hp as [_ Hp].
    rewrite Hp. destruct s; reflexivity.
Qed.

(** Without whitespace there is nothing to collapse or to strip. *)
Lemma no_space_fixed (b : bool) (s : string) :
  (forall c, Py.isspace c = true -> Py.mem c s = false) ->
  Py.collapse_from b s = s /\ Py.lstrip s = s /\ Py.rstrip s = s.
Proof.
  revert b. induction s as [|d s IH]; intros b Hs; [repeat split|].
  assert (Hd : Py.isspace d = false).
  { destruct (Py.isspace d) eqn:Hd; [|reflexivity].
    specialize (Hs d Hd). simpl in Hs. rewrite Ascii.eqb_refl in Hs. discriminate. }
  assert (Hs' : forall c, Py.isspace c = true -> Py.mem c s = false).
  { intros c Hc. specialize (Hs c Hc). simpl in Hs.
    apply orb_false_iff in Hs as [_ Hs]. exact Hs. }
  destruct (IH false Hs') as (Hcol & _ & Hr).
  simpl. rewrite Hd, Hcol, Hr. repeat split. destruct s; reflexivity.
Qed.

(** A text without slash or dot is its own stem. *)
Lemma stem_plain (s : string) :
  Py.mem "/" s = false -> Py.mem "." s = false -> Path.stem s = s.
Proof.
  intros Hslash Hdot.
  assert (Hname : Path.name s = s).
  { unfold Path.name, Path.parts. rewrite (split_no_sep _ _ Hslash). simpl.
    destruct s as [|c s]; [reflexivity|].
    destruct s as [|d s]; [|cbn; destruct (Ascii.eqb c "."); reflexivity].
    simpl in Hdot. apply orb_false_iff in Hdot as [Hc _].
    assert (String.eqb (String c "") "." = false) as ->; [|reflexivity].
    apply String.eqb_neq. intros [= ->]. discriminate Hc. }
  unfold Path.stem. rewrite Hname, (rfind_absent _ _ Hdot). reflexivity.
Qed.

End CleanNames.

Section DerivedTitle.

Context `{E : Externals}.

(** No character of the class survives in a derived title. *)
Lemma clean_filename_strips (filename : string) (c : ascii) :
  Py.mem c special_chars = true -> Py.mem c (clean_filename filename) = false.
Proof.
  intros Hc. unfold clean_filename.
  apply mem_strip, mem_collapse_from.
  - apply mem_remove_chars, Hc.
  - apply special_not_space, Hc.
Qed.

(** Where nothing else applies, exactly the characters of the class are
    deleted. *)
Lemma clean_filename_only_class (name : string) :
  unescape_plain ->
  (forall c, Py.mem c "._&/" = true \/ Py.isspace c = true -> Py.mem c name = false) ->
  clean_filename name = Py.remove_chars special_chars name.
Proof.
  intros Hplain Hname. unfold clean_filename.
  rewrite stem_plain by (apply Hname; left; reflexivity).
  rewrite replace_absent by (apply Hname; left; reflexivity).
  rewrite Hplain by (apply Hname; left; reflexivity).
  assert (Hr : forall c, Py.isspace c = true ->
            Py.mem c (Py.remove_chars special_chars name) = false).
  { intros c Hc. specialize (Hname c (or_intror Hc)).
    clear -Hname. generalize special_chars as cs. intros cs.
    induction name as [|d s IH]; simpl; [reflexivity|].
    simpl in Hname. apply orb_false_iff in Hname as [Hd Hs].
    destruct (Py.mem d cs); simpl; rewrite ?Hd; auto. }
  destruct (no_space_fixed false _ Hr) as (Hcol & Hl & Hrs).
  unfold Py.strip, Py.collapse_ws. rewrite Hcol, Hl, Hrs. reflexivity.
Qed.

(** A name that is already clean is returned unchanged. *)
Lemma clean_filename_fixed (name : string) :
  unescape_plain -> already_clean name = true -> clean_filename name = name.
Proof.
  intros Hplain Hclean. unfold already_clean in Hclean.
  apply orb_true_iff in Hclean as [Hclean|Hempty].
  2:{ apply String.eqb_eq in Hempty. subst name. unfold clean_filename.
      change (Path.stem "") with "". simpl. rewrite Hplain; reflexivity. }
  assert (Hno : forall x, plain_char x = false -> x <> " "%char ->
                  Py.mem x name = false).
  { intros x. apply clean_tail_mem with (b := true), Hclean. }
  unfold clean_filename.
  rewrite stem_plain by (apply Hno; [reflexivity|discriminate]).
  rewrite replace_absent by (apply Hno; [reflexivity|discriminate]).
  rewrite Hplain by (apply Hno; [reflexivity|discriminate]).
  rewrite remove_chars_none.
  2:{ intros c Hc. apply Hno; [|apply special_not_space, Hc].
      unfold plain_char. rewrite Hc. reflexivity. }
  unfold Py.collapse_ws, Py.strip.
  assert (Hfalse : Py.collapse_from false name = name).
  { destruct name as [|c s]; [reflexivity|].
    simpl in Hclean. destruct (Ascii.eqb c " ") eqn:Hc; [discriminate|].
    apply andb_true_iff in Hclean as [Hp Hs]. simpl.
    unfold plain_char in Hp. apply negb_true_iff, orb_false_iff in Hp as [_ Hp].
    rewrite Hp. f_equal. apply clean_tail_collapse, Hs. }
  rewrite Hfalse, (clean_tail_lstrip _ Hclean). apply (clean_tail_rstrip _ _ Hclean).
Qed.

(** The colon and the question mark are deleted, not replaced. *)
Lemma clean_filename_my_file :
  unescape_plain -> clean_filename "My:File?.html" = "MyFile".
Proof.
  intros Hplain. unfold clean_filename.
  change (Py.replace "_" " " (Path.stem "My:File?.html")) with "My:File?".
  rewrite Hplain by reflexivity. reflexivity.
Qed.

End DerivedTitle.

Lemma plain_externals_unescape_plain : @unescape_plain plain_externals.
Proof.
  intros s. simpl. induction s as [|c s IH]; [reflexivity|].
  intros Hs. simpl in Hs. apply orb_false_iff in Hs as [Hc Hs].
  cbn [decode_refs].
  assert (Hsw : forall p, Py.startswith (String "&" p) (String c s) = false).
  { intros p. simpl. rewrite Hc. reflexivity. }
  rewrite !Hsw. f_equal. apply IH, Hs.
Qed.

(** C3 (amended).  [clean_filename] deletes every character of the class
    (it does not put a space in its place): no character of the class
    occurs in a derived title; on a name with no dot, underscore,
    ampersand, slash or whitespace the title is the name without the
    characters of the class; a name that is already clean is returned
    unchanged; and the title of [My:File?.html] is [MyFile]. *)
Theorem derive_title_strips_class `{E : Externals} :
  unescape_plain ->
  (forall filename c,
      Py.mem c special_chars = true -> Py.mem c (clean_filename filename) = false)
  /\ (forall name,
      (forall c, Py.mem c "._&/" = true \/ Py.isspace c = true -> Py.mem c name = false) ->
      clean_filename name = Py.remove_chars special_chars name)
  /\ (forall name, already_clean name = true -> clean_filename name = name)
  /\ clean_filename "My:File?.html" = "MyFile".
Proof.
  intros Hplain. repeat split.
  - intros filename c. apply clean_filename_strips.
  - intros name. apply clean_filename_only_class, Hplain.
  - intros name. apply clean_filename_fixed, Hplain.
  - apply clean_filename_my_file, Hplain.
Qed.

Lemma derive_title_strips_class_witness :
  @clean_filename plain_externals "My File" = "My File"
  /\ @clean_filename plain_externals "My:File?.html" = "MyFile".
Proof.
  destruct (@derive_title_strips_class plain_externals
              plain_externals_unescape_plain) as (_ & _ & Hfixed & Hexample).
  split; [apply Hfixed; reflexivity | exact Hexample].
Defined.

(** The example of the specification does not hold: the title of
    [My:File?.html] is not [My File]. *)
Lemma derive_title_example_differs :
  @clean_filename plain_externals "My:File?.html" <> "My File".
Proof. vm_compute. discriminate. Qed.

(** Nor is the title of a title always the same title: a dot left in the
    first title is taken for the start of an extension. *)
Example derive_title_twice :
  @clean_filename plain_externals "a.b.html" = "a.b"
  /\ @clean_filename plain_externals "a.b" = "a".
Proof. split; reflexivity. Qed.

(* ===================================================================== *)
(** * Properties of the retry loop *)
(* ===================================================================== *)

Section RetryLoop.

Variable c : client.
Variable remote : nat -> string -> reply.
Variable prompt : string.

Lemma server_wait_no_call (error_str : string) :
  List.filter is_call (server_wait error_str) = [].
Proof. unfold server_wait. destruct (suggested_delay error_str); reflexivity. Qed.

Lemma server_wait_no_acquire (error_str : string) :
  List.filter is_acquire (server_wait error_str) = [].
Proof. unfold server_wait. destruct (suggested_delay error_str); reflexivity. Qed.

Lemma make_api_call_fails (k : nat) (error_str : string) :
  remote k prompt = Fails error_str ->
  make_api_call (remote k) prompt =
  (ApiCall :: server_wait error_str, Raise (ApiError error_str)).
Proof.
  intros Hr. unfold make_api_call, server_wait. rewrite Hr.
  destruct (suggested_delay error_str); reflexivity.
Qed.

Lemma make_api_call_text (k : nat) (text : string) :
  remote k prompt = Text text ->
  make_api_call (remote k) prompt = ([ApiCall], Ok text).
Proof. intros Hr. unfold make_api_call. rewrite Hr. reflexivity. Qed.

(** One failed attempt that is not the last: its events, then the rest
    of the loop. *)
Lemma attempts_fail_more (k : nat) (todo : list nat) (error_str : string) :
  remote k prompt = Fails error_str ->
  (Z.of_nat k <? max_retries c - 1)%Z = true ->
  attempts c remote prompt (k :: todo) =
  (failed_attempt c error_str k ++ events (attempts c remote prompt todo),
   outcome (attempts c remote prompt todo)).
Proof.
  intros Hr Hk. cbn [attempts]. rewrite (make_api_call_fails _ _ Hr).
  unfold failed_attempt. rewrite Hk. cbn.
  destruct (attempts c remote prompt todo) as [t r]. cbn.
  rewrite <- app_assoc. reflexivity.
Qed.

(** The failed attempt after which the loop gives up. *)
Lemma attempts_fail_last (k : nat) (todo : list nat) (error_str : string) :
  remote k prompt = Fails error_str ->
  (Z.of_nat k <? max_retries c - 1)%Z = false ->
  attempts c remote prompt (k :: todo) =
  (failed_attempt c error_str k, Raise (ApiError error_str)).
Proof.
  intros Hr Hk. cbn [attempts]. rewrite (make_api_call_fails _ _ Hr).
  unfold failed_attempt. rewrite Hk. cbn. rewrite !app_nil_r. reflexivity.
Qed.

Lemma attempts_success (k : nat) (todo : list nat) (text : string) :
  remote k prompt = Text text ->
  attempts c remote prompt (k :: todo) = ([ApiCall], Ok (Some text)).
Proof. intros Hr. cbn [attempts]. rewrite (make_api_call_text _ _ Hr). reflexivity. Qed.

(** Every attempt starts with its request. *)
Lemma attempts_head (k : nat) (todo : list nat) :
  exists t, events (attempts c remote prompt (k :: todo)) = ApiCall :: t.
Proof.
  destruct (remote k prompt) as [text|error_str] eqn:Hr.
  - rewrite (attempts_success _ _ _ Hr). eauto.
  - destruct (Z.of_nat k <? max_retries c - 1)%Z eqn:Hk.
    + rewrite (attempts_fail_more _ _ _ Hr Hk). cbn. eauto.
    + rewrite (attempts_fail_last _ _ _ Hr Hk). cbn. eauto.
Qed.

Lemma failed_attempt_calls (error_str : string) (k : nat) :
  length (List.filter is_call (failed_attempt c error_str k)) = 1.
Proof.
  unfold failed_attempt. cbn. rewrite List.filter_app, server_wait_no_call.
  destruct (Z.of_nat k <? max_retries c - 1)%Z; reflexivity.
Qed.

Lemma failed_attempt_no_acquire (error_str : string) (k : nat) :
  List.filter is_acquire (failed_attempt c error_str k) = [].
Proof.
  unfold failed_attempt. cbn. rewrite List.filter_app, server_wait_no_acquire.
  destruct (Z.of_nat k <? max_retries c - 1)%Z; reflexivity.
Qed.

(** At most one request per attempt, and no permit taken in the loop. *)
Lemma attempts_calls_bound (todo : list nat) :
  length (List.filter is_call (events (attempts c remote prompt todo))) <= length todo
  /\ List.filter is_acquire (events (attempts c remote prompt todo)) = [].
Proof.
  induction todo as [|k todo [IHc IHa]]; [split; [cbn; lia|reflexivity]|].
  destruct (remote k prompt) as [text|error_str] eqn:Hr.
  - rewrite (attempts_success _ _ _ Hr). cbn. split; [lia|reflexivity].
  - destruct (Z.of_nat k <? max_retries c - 1)%Z eqn:Hk.
    + rewrite (attempts_fail_more _ _ _ Hr Hk). cbn [events fst].
      rewrite !List.filter_app, length_app, failed_attempt_calls,
        failed_attempt_no_acquire, IHa. cbn [length]. split; [lia|reflexivity].
    + rewrite (attempts_fail_last _ _ _ Hr Hk). cbn [events fst].
      rewrite failed_attempt_calls, failed_attempt_no_acquire.
      cbn [length]. split; [lia|reflexivity].
Qed.

Lemma failed_run_calls (a n : nat) :
  length (List.filter is_call (failed_run c remote prompt a n)) = n.
Proof.
  unfold failed_run. revert a. induction n as [|n IH]; intros a; [reflexivity|].
  cbn [seq flat_map]. rewrite List.filter_app, length_app, failed_attempt_calls, IH.
  reflexivity.
Qed.

(** A run of failed attempts, none of them the last, before the rest of
    the loop. *)
Lemma attempts_failed_prefix (n : nat) : forall (a : nat) (rest : list nat),
  (forall k, a <= k < a + n -> is_failure (remote k prompt) = true) ->
  (forall k, a <= k < a + n -> (Z.of_nat k < max_retries c - 1)%Z) ->
  attempts c remote prompt (seq a n ++ rest) =
  (failed_run c remote prompt a n ++ events (attempts c remote prompt rest),
   outcome (attempts c remote prompt rest)).
Proof.
  induction n as [|n IH]; intros a rest Hfail Hlt.
  - cbn. destruct (attempts c remote prompt rest); reflexivity.
  - cbn [seq app].
    destruct (remote a prompt) as [text|error_str] eqn:Hr.
    { specialize (Hfail a ltac:(lia)). rewrite Hr in Hfail. discriminate. }
    rewrite (attempts_fail_more _ _ _ Hr)
      by (apply Z.ltb_lt, Hlt; lia).
    rewrite IH by (intros; first [apply Hfail | apply Hlt]; lia).
    unfold failed_run. cbn [seq flat_map events outcome fst snd].
    rewrite Hr. cbn [error_of]. rewrite <- app_assoc. reflexivity.
Qed.

(** Every attempt fails: the loop makes them all and re-raises the last
    exception. *)
Lemma attempts_all_fail (n : nat) :
  max_retries c = Z.of_nat (S n) ->
  (forall k, k < S n -> is_failure (remote k prompt) = true) ->
  attempts c remote prompt (seq 0 (S n)) =
  (failed_run c remote prompt 0 (S n), Raise (ApiError (error_of (remote n prompt)))).
Proof.
  intros Hmax Hfail.
  rewrite seq_S. cbn [Nat.add].
  rewrite attempts_failed_prefix;
    [| intros; apply Hfail; lia | intros; lia].
  destruct (remote n prompt) as [text|error_str] eqn:Hr.
  { specialize (Hfail n ltac:(lia)). rewrite Hr in Hfail. discriminate. }
  rewrite (attempts_fail_last _ _ _ Hr) by (apply Z.ltb_ge; lia).
  unfold failed_run. rewrite seq_S, flat_map_app. cbn [events outcome fst snd].
  cbn [flat_map Nat.add]. rewrite Hr, app_nil_r. reflexivity.
Qed.

End RetryLoop.

Section Convert.

Variable c : client.
Variable remote : nat -> string -> reply.
Variables html_content filename : string.

Let prompt : string := make_prompt html_content.
Let n : nat := Z.to_nat (max_retries c).
Let run : io (option string) := convert_html_to_markdown c remote html_content filename.

Lemma convert_unfold :
  events run = Acquire :: events (attempts c remote prompt (seq 0 n))
  /\ outcome run = outcome (attempts c remote prompt (seq 0 n)).
Proof.
  unfold run, convert_html_to_markdown, range. fold prompt. fold n.
  destruct (attempts c remote prompt (seq 0 n)) as [t r]. split; reflexivity.
Qed.

Lemma seq_split_at (k : nat) :
  k < n -> seq 0 n = seq 0 k ++ k :: seq (S k) (n - S k).
Proof.
  intros Hk. replace n with (k + S (n - S k)) at 1 by lia.
  rewrite seq_app. reflexivity.
Qed.


(** The loop when no attempt succeeds. *)
Lemma convert_all_fail :
  (1 <= max_retries c)%Z ->
  (forall k, k < n -> is_failure (remote k prompt) = true) ->
  events run = Acquire :: failed_run c remote prompt 0 n
  /\ outcome run = Raise (ApiError (error_of (remote (n - 1) prompt))).
Proof.
  intros Hmax Hfail. destruct convert_unfold as [-> ->].
  destruct n as [|m] eqn:Hn; [subst n; lia|].
  rewrite attempts_all_fail; [| subst n; lia | exact Hfail].
  replace (S m - 1) with m by lia. split; reflexivity.
Qed.

(** One permit, taken first; at most one request per attempt. *)
Lemma convert_one_permit :
  exists t, events run = Acquire :: t
    /\ List.filter is_acquire t = []
    /\ length (List.filter is_call t) <= n.
Proof.
  destruct convert_unfold as [-> _].
  destruct (attempts_calls_bound c remote prompt (seq 0 n)) as [Hc Ha].
  rewrite length_seq in Hc. eauto.
Qed.

(** The sleeps of a run of failed attempts whose errors carry no
    suggested delay are the backoff delays. *)
Lemma sleeps_failed_run (a m : nat) :
  (forall k, a <= k < a + m -> suggested_delay (error_of (remote k prompt)) = None) ->
  (forall k, a <= k < a + m -> (Z.of_nat k < max_retries c - 1)%Z) ->
  sleeps (failed_run c remote prompt a m) = map (backoff c) (seq a m).
Proof.
  revert a. induction m as [|m IH]; intros a Hnone Hlt; [reflexivity|].
  unfold failed_run in *. cbn [seq flat_map map].
  unfold failed_attempt at 1, server_wait.
  rewrite (Hnone a) by lia.
  rewrite (proj2 (Z.ltb_lt _ _) (Hlt a ltac:(lia))).
  cbn. unfold sleeps in IH. rewrite IH by (intros; first [apply Hnone|apply Hlt]; lia).
  reflexivity.
Qed.

Lemma sleeps_app (t1 t2 : list event) :
  sleeps (t1 ++ t2) = sleeps t1 ++ sleeps t2.
Proof. unfold sleeps. apply omap_app. Qed.

Lemma sleeps_all_fail :
  (1 <= max_retries c)%Z ->
  (forall k, k < n -> suggested_delay (error_of (remote k prompt)) = None) ->
  sleeps (Acquire :: failed_run c remote prompt 0 n)
  = map (backoff c) (seq 0 (n - 1)).
Proof.
  intros Hmax Hnone.
  destruct n as [|m] eqn:Hn; [subst n; lia|].
  replace (S m - 1) with m by lia.
  change (sleeps (Acquire :: ?t)) with (sleeps t).
  unfold failed_run. rewrite seq_S, flat_map_app, sleeps_app.
  fold (failed_run c remote prompt 0 m).
  rewrite sleeps_failed_run; [| intros; apply Hnone; lia | intros; subst n; lia].
  cbn [flat_map Nat.add]. unfold failed_attempt, server_wait.
  rewrite (Hnone m) by lia.
  rewrite (proj2 (Z.ltb_ge _ _)) by (subst n; lia).
  cbn. rewrite !app_nil_r. reflexivity.
Qed.

End Convert.





(** C4 (amended).  When an attempt that is not the last fails with a 429
    RESOURCE_EXHAUSTED error carrying a retry delay, the client sleeps
    that delay and then also the backoff [retry_delay_base * 2 ^ attempt]
    before the next attempt: the suggested delay is added to the
    exponential schedule, it does not replace it. *)
Theorem suggested_delay_adds_to_backoff (c : client) (remote : nat -> string -> reply)
    (html_content filename : string) (k : nat) (error_str : string) (d : Z) :
  let prompt := make_prompt html_content in
  (forall j, j < k -> is_failure (remote j prompt) = true) ->
  remote k prompt = Fails error_str ->
  suggested_delay error_str = Some d ->
  (Z.of_nat k < max_retries c - 1)%Z ->
  exists pre post,
    events (convert_html_to_markdown c remote html_content filename) =
      pre ++ [ApiCall; Sleep (inject_Z d); Sleep (backoff c k); ApiCall] ++ post
    /\ length (List.filter is_call pre) = k.
Proof.
  intros prompt Hfail Hr Hd Hk.
  destruct (convert_unfold c remote html_content filename) as [-> _].
  fold prompt.
  assert (Hn : S k < Z.to_nat (max_retries c)) by lia.
  rewrite (seq_split_at c k) by lia. set (n := Z.to_nat (max_retries c)) in *.
  rewrite attempts_failed_prefix; [| intros; apply Hfail; lia | intros; lia].
  cbn [events fst].
  rewrite (attempts_fail_more _ _ _ _ _ _ Hr) by (apply Z.ltb_lt, Hk).
  cbn [events fst].
  replace (n - S k) with (S (n - S (S k))) by lia. cbn [seq].
  destruct (attempts_head c remote prompt (S k) (seq (S (S k)) (n - S (S k))))
    as [post Hpost].
  rewrite Hpost. unfold failed_attempt, server_wait.
  rewrite Hd, (proj2 (Z.ltb_lt _ _) Hk).
  exists (Acquire :: failed_run c remote prompt 0 k), post. split.
  - reflexivity.
  - cbn [List.filter is_call]. apply failed_run_calls.
Qed.

Lemma suggested_delay_adds_to_backoff_witness :
  exists pre post,
    events (convert_html_to_markdown three_attempts quota_then_text "<p>x</p>" "x.html") =
      pre ++ [ApiCall; Sleep (inject_Z 7); Sleep (backoff three_attempts 0); ApiCall] ++ post
    /\ length (List.filter is_call pre) = 0.
Proof.
  apply (suggested_delay_adds_to_backoff three_attempts quota_then_text
           "<p>x</p>" "x.html" 0 quota_error 7).
  - intros j Hj. lia.
  - reflexivity.
  - vm_compute. reflexivity.
  - vm_compute. reflexivity.
Defined.

(** The claim as stated fails: after the suggested seven seconds the
    client also sleeps the backoff of one second before the second
    attempt. *)
Lemma suggested_delay_does_not_replace_backoff :
  events (convert_html_to_markdown three_attempts quota_then_text "<p>x</p>" "x.html")
    = [Acquire; ApiCall; Sleep (inject_Z 7); Sleep (backoff three_attempts 0); ApiCall]
  /\ sleeps (events (convert_html_to_markdown three_attempts quota_then_text
                       "<p>x</p>" "x.html")) <> [inject_Z 7].
Proof. split; [reflexivity|]. vm_compute. discriminate. Qed.

(** C8 (amended).  With a rate limit of at least one permit, a
    conversion takes one permit of the rate limiter, before its first
    request, and makes all its attempts under that permit: up to
    [max_retries] requests, and exactly [max_retries] of them when every
    attempt fails.  Retry attempts take no permit.  (A limiter whose
    limit is below one grants no permit; such clients are left out.) *)
Theorem one_permit_per_conversion (c : client) (remote : nat -> string -> reply)
    (html_content filename : string) :
  let prompt := make_prompt html_content in
  let n := Z.to_nat (max_retries c) in
  let run := convert_html_to_markdown c remote html_content filename in
  (1 <= rate_limit c)%Z ->
  exists t,
    events run = Acquire :: t
    /\ List.filter is_acquire t = []
    /\ length (List.filter is_call t) <= n
    /\ ((forall k, k < n -> is_failure (remote k prompt) = true) ->
        length (List.filter is_call t) = n).
Proof.
  intros prompt n run _.
  destruct (convert_one_permit c remote html_content filename) as (t & He & Ha & Hc).
  fold run in He. fold n in Hc.
  exists t. repeat split; try assumption.
  intros Hfail. destruct (Z_lt_le_dec (max_retries c) 1) as [Hlt|Hge].
  - assert (n = 0) as Hn by (subst n; lia). rewrite Hn in *. lia.
  - destruct (convert_all_fail c remote html_content filename Hge Hfail) as [He' _].
    fold run in He'. fold prompt in He'. fold n in He'.
    rewrite He in He'. injection He' as ->. apply failed_run_calls.
Qed.

Lemma one_permit_per_conversion_witness :
  exists t,
    events (convert_html_to_markdown three_attempts always_down "<p>x</p>" "x.html")
      = Acquire :: t
    /\ List.filter is_acquire t = []
    /\ length (List.filter is_call t) = 3.
Proof.
  destruct (one_permit_per_conversion three_attempts always_down "<p>x</p>" "x.html")
    as (t & He & Ha & _ & Hall).
  - cbn. lia.
  - exists t. split; [exact He|]. split; [exact Ha|].
    apply Hall. intros k _. reflexivity.
Defined.

(** The claim as stated fails.  With a limit of one request per minute,
    a first request that fails after half a second is followed, one
    second of backoff later, by a second request under the same permit:
    two requests start within the first 60 seconds. *)
Lemma retries_exceed_rate_limit :
  let run := convert_html_to_markdown one_per_minute down_then_text "<p>x</p>" "x.html" in
  let times := call_times (fun _ => 1 # 2)%Q 0 0%Q (events run) in
  events run = [Acquire; ApiCall; Sleep (backoff one_per_minute 0); ApiCall]
  /\ calls_in_window times 0%Q = 2
  /\ Z.to_nat (rate_limit one_per_minute) < calls_in_window times 0%Q.
Proof. vm_compute. repeat split; lia. Qed.

(* ===================================================================== *)
(** * Properties of the orchestrator *)
(* ===================================================================== *)

Section Discovery.

Lemma insert_by_mtime_perm (x : file_entry) (l : list file_entry) :
  insert_by_mtime x l ≡ₚ x :: l.
Proof.
  induction l as [|y l IH]; cbn; [reflexivity|].
  destruct (Qle_bool (snd x) (snd y)); [reflexivity|].
  rewrite IH. apply Permutation_swap.
Qed.

Lemma sort_by_mtime_perm (l : list file_entry) : sort_by_mtime l ≡ₚ l.
Proof.
  induction l as [|x l IH]; cbn; [reflexivity|].
  rewrite insert_by_mtime_perm. f_equiv. exact IH.
Qed.

Lemma insert_by_mtime_sorted (x : file_entry) (l : list file_entry) :
  StronglySorted mtime_le l -> StronglySorted mtime_le (insert_by_mtime x l).
Proof.
  induction l as [|y l IH]; intros Hs; cbn.
  - repeat constructor.
  - apply StronglySorted_inv in Hs as [Hs Hy].
    destruct (Qle_bool (snd x) (snd y)) eqn:Hxy.
    + apply Qle_bool_iff in Hxy. constructor; [constructor; assumption|].
      constructor; [exact Hxy|].
      eapply Forall_impl; [exact Hy|]. intros z Hz. unfold mtime_le in *.
      eapply Qle_trans; eassumption.
    + assert (Hyx : mtime_le y x).
      { unfold mtime_le. destruct (Qlt_le_dec (snd y) (snd x)) as [Hlt|Hle].
        - apply Qlt_le_weak, Hlt.
        - apply Qle_bool_iff in Hle. congruence. }
      constructor; [apply IH, Hs|].
      rewrite insert_by_mtime_perm. constructor; assumption.
Qed.

Lemma sort_by_mtime_sorted (l : list file_entry) :
  StronglySorted mtime_le (sort_by_mtime l).
Proof.
  induction l as [|x l IH]; cbn; [constructor|].
  apply insert_by_mtime_sorted, IH.
Qed.

(** The sort is stable: files with the same modification time keep the
    order of the listing. *)
Lemma insert_by_mtime_stable (t : Q) (x : file_entry) (l : list file_entry) :
  StronglySorted mtime_le l ->
  List.filter (fun f => Qeq_bool (snd f) t) (insert_by_mtime x l) =
  List.filter (fun f => Qeq_bool (snd f) t) (x :: l).
Proof.
  induction l as [|y l IH]; intros Hs; [reflexivity|].
  apply StronglySorted_inv in Hs as [Hs Hy]. cbn [insert_by_mtime].
  destruct (Qle_bool (snd x) (snd y)) eqn:Hxy; [reflexivity|].
  cbn [List.filter] in *. rewrite (IH Hs).
  destruct (Qeq_bool (snd x) t) eqn:Hx; [|reflexivity].
  destruct (Qeq_bool (snd y) t) eqn:Hyt; [|reflexivity].
  apply Qeq_bool_iff in Hx, Hyt.
  assert (Hle : (snd x <= snd y)%Q) by (rewrite Hx, Hyt; apply Qle_refl).
  apply Qle_bool_iff in Hle. congruence.
Qed.

Lemma sort_by_mtime_stable (t : Q) (l : list file_entry) :
  List.filter (fun f => Qeq_bool (snd f) t) (sort_by_mtime l) =
  List.filter (fun f => Qeq_bool (snd f) t) l.
Proof.
  induction l as [|x l IH]; [reflexivity|]. cbn [sort_by_mtime fold_right].
  rewrite insert_by_mtime_stable by apply sort_by_mtime_sorted.
  cbn [List.filter]. fold (sort_by_mtime l). rewrite IH. reflexivity.
Qed.

Lemma discover_sorted (w : world) (directory : string) :
  StronglySorted mtime_le (discover_html_files w directory).
Proof.
  unfold discover_html_files. destruct (dir_exists w directory).
  - apply sort_by_mtime_sorted.
  - constructor.
Qed.

Lemma discover_perm (w : world) (directory : string) :
  dir_exists w directory = true ->
  discover_html_files w directory ≡ₚ glob_html w directory.
Proof.
  intros Hd. unfold discover_html_files. rewrite Hd. apply sort_by_mtime_perm.
Qed.

End Discovery.

Section Reordering.

Implicit Types (l : list conversion) (m : gmap string conversion).

Lemma fold_insert_other l : forall m (t : string),
  t ∉ map fst l ->
  fold_left (fun m result => <[fst result := result]> m) l m !! t = m !! t.
Proof.
  induction l as [|x l IH]; intros m t Ht; cbn; [reflexivity|].
  cbn in Ht. apply not_elem_of_cons in Ht as [Hx Ht].
  rewrite IH by exact Ht. apply lookup_insert_ne. congruence.
Qed.

Lemma fold_insert_some l : forall m (t : string) (r : conversion),
  fold_left (fun m result => <[fst result := result]> m) l m !! t = Some r ->
  (r ∈ l /\ fst r = t) \/ m !! t = Some r.
Proof.
  induction l as [|x l IH]; intros m t r Hr; cbn in Hr; [right; exact Hr|].
  apply IH in Hr as [[Hin Ht]|Hm].
  - left. split; [right; exact Hin|exact Ht].
  - destruct (decide (fst x = t)) as [Hx|Hx].
    + rewrite <- Hx, lookup_insert_eq in Hm. injection Hm as <-.
      left. split; [left|exact Hx].
    + rewrite lookup_insert_ne in Hm by exact Hx. right. exact Hm.
Qed.

Lemma fold_insert_is_some l : forall m (t : string),
  t ∈ map fst l \/ is_Some (m !! t) ->
  is_Some (fold_left (fun m result => <[fst result := result]> m) l m !! t).
Proof.
  induction l as [|x l IH]; intros m t Ht; cbn.
  - destruct Ht as [Ht|Ht]; [|exact Ht]. cbn in Ht. inversion Ht.
  - apply IH. destruct Ht as [Ht|Ht].
    + cbn in Ht. apply elem_of_cons in Ht as [Ht|Ht]; [|left; exact Ht].
      right. subst t. rewrite lookup_insert_eq. eauto.
    + destruct (decide (fst x = t)) as [->|Hx].
      * right. rewrite lookup_insert_eq. eauto.
      * right. rewrite lookup_insert_ne by exact Hx. exact Ht.
Qed.

(** The mapping holds a title exactly when some gathered result bears it,
    and what it holds under a title is a gathered result of that title. *)
Lemma file_to_result_is_some l (t : string) :
  is_Some (file_to_result l !! t) <-> t ∈ map fst l.
Proof.
  split.
  - intros [r Hr]. apply fold_insert_some in Hr as [[Hin Ht]|Hm].
    + subst t. apply list_elem_of_In, in_map, list_elem_of_In, Hin.
    + rewrite lookup_empty in Hm. discriminate.
  - intros Ht. apply fold_insert_is_some. left. exact Ht.
Qed.

Lemma file_to_result_some l (t : string) (r : conversion) :
  file_to_result l !! t = Some r -> r ∈ l /\ fst r = t.
Proof.
  intros Hr. apply fold_insert_some in Hr as [H|Hm]; [exact H|].
  rewrite lookup_empty in Hm. discriminate.
Qed.

(** With pairwise distinct titles the mapping returns each result under
    its own title. *)
Lemma file_to_result_own l (r : conversion) :
  NoDup (map fst l) -> r ∈ l -> file_to_result l !! fst r = Some r.
Proof.
  unfold file_to_result. generalize (∅ : gmap string conversion).
  induction l as [|x l IH]; intros m Hnd Hin; [inversion Hin|].
  cbn in Hnd. apply NoDup_cons in Hnd as [Hx Hnd]. cbn.
  apply elem_of_cons in Hin as [->|Hin].
  - rewrite fold_insert_other by exact Hx. apply lookup_insert_eq.
  - apply IH; assumption.
Qed.

End Reordering.

Section Tasks.

Context `{E : Externals}.
Variable cv : converter.
Variable w : world.

(** A task files its result under the title of its own file. *)
Lemma process_file_title (file_path : string) (total i : nat) (r : conversion) :
  result_of (process_file cv w file_path total i) = Some r ->
  fst r = title_of file_path.
Proof.
  unfold result_of, process_file, title_of.
  unfold lift, mbind, io_bind, mret, io_ret.
  destruct (read_text w file_path) as [html_content|e]; [|discriminate].
  destruct (convert_html_to_markdown _ _ _ _) as [t [markdown|e]];
    [|discriminate].
  cbn. intros [= <-]. reflexivity.
Qed.

Lemma make_tasks_lookup (html_files : list file_entry) (i : nat) :
  make_tasks cv w html_files !! i =
  (fun entry => process_file cv w (fst entry) (length html_files) i)
    <$> html_files !! i.
Proof. unfold make_tasks. apply list_lookup_imap. Qed.

Lemma make_tasks_length (html_files : list file_entry) :
  length (make_tasks cv w html_files) = length html_files.
Proof. unfold make_tasks. apply length_imap. Qed.

End Tasks.

Section Completion.

Variable tasks : list (io conversion).

Lemma omap_lookup_seq {A B} (g : A -> option B) (pre l : list A) :
  omap (fun i => (pre ++ l) !! i ≫= g) (seq (length pre) (length l)) = omap g l.
Proof.
  revert pre. induction l as [|x l IH]; intros pre; [reflexivity|].
  specialize (IH (pre ++ [x])). rewrite length_app, <- app_assoc in IH.
  cbn [length app] in IH. rewrite Nat.add_1_r in IH.
  cbn [length seq]. 
  change (omap ?f (?a :: ?l)) with (match f a with Some y => y :: omap f l | None => omap f l end).
  rewrite IH. rewrite list_lookup_middle by reflexivity. reflexivity.
Qed.

(** Whatever the order of completion, the loop gathers the results of the
    tasks that succeeded, each once. *)
Lemma completed_results_perm (order : list nat) :
  order ≡ₚ seq 0 (length tasks) ->
  completed_results tasks order ≡ₚ own_results tasks.
Proof.
  intros Hp. unfold completed_results, own_results. rewrite Hp.
  pose proof (omap_lookup_seq result_of [] tasks) as Hseq.
  cbn [app length] in Hseq. rewrite Hseq. reflexivity.
Qed.

End Completion.

Section OrderedResults.

Context `{E : Externals}.
Variable cv : converter.
Variable w : world.
Variable html_files : list file_entry.
Variable order : list nat.
Hypothesis order_perm : order ≡ₚ seq 0 (length html_files).

Let tasks : list (io conversion) := make_tasks cv w html_files.
Let processed : list conversion := completed_results tasks order.
Let titles : list string := map (fun entry => title_of (fst entry)) html_files.

Lemma processed_perm : processed ≡ₚ own_results tasks.
Proof.
  apply completed_results_perm. unfold tasks.
  rewrite make_tasks_length. exact order_perm.
Qed.

Lemma omap_imap_pointwise {A B C} (f : nat -> A -> B) (g : B -> option C)
    (h : A -> option C) (l : list A) :
  (forall i x, l !! i = Some x -> g (f i x) = h x) ->
  omap g (imap f l) = omap h l.
Proof.
  revert f. induction l as [|x l IH]; intros f Hf; [reflexivity|].
  rewrite imap_cons.
  change (omap ?k (?a :: ?r)) with
    (match k a with Some y => y :: omap k r | None => omap k r end).
  rewrite (Hf 0 x eq_refl), (IH (f ∘ S)); [reflexivity|].
  intros i y Hy. apply (Hf (S i) y Hy).
Qed.

(** The titles of the results of the tasks follow the titles of the
    files, in the order of discovery. *)
Lemma own_titles_sublist :
  sublist (map fst (own_results tasks)) titles.
Proof.
  unfold own_results, tasks, make_tasks, titles.
  generalize (length html_files) as total. intros total.
  assert (Hgen : forall (l : list file_entry) (k : nat),
    sublist (map fst (omap result_of
               (imap (fun i entry => process_file cv w (fst entry) total (k + i)) l)))
            (map (fun entry => title_of (fst entry)) l)).
  { induction l as [|x l IH]; intros k; [constructor|].
    rewrite imap_cons.
    rewrite (imap_ext _ (fun i entry => process_file cv w (fst entry) total (S k + i)))
      by (intros i y _; unfold compose; f_equal; lia).
    change (omap ?g (?a :: ?r)) with
      (match g a with Some y => y :: omap g r | None => omap g r end).
    cbn [map]. specialize (IH (S k)).
    destruct (result_of (process_file cv w (fst x) total (k + 0))) as [r|] eqn:Hr.
    - cbn [map]. rewrite (process_file_title _ _ _ _ _ _ Hr).
      apply sublist_skip, IH.
    - apply sublist_cons, IH. }
  apply (Hgen html_files 0).
Qed.

Lemma elem_of_own_results (r : conversion) :
  r ∈ own_results tasks <->
  exists i entry, html_files !! i = Some entry
    /\ result_of (process_file cv w (fst entry) (length html_files) i) = Some r.
Proof.
  unfold own_results. rewrite list_elem_of_omap. split.
  - intros (task & Hin & Hr). apply list_elem_of_lookup in Hin as [i Hi].
    unfold tasks in Hi. rewrite make_tasks_lookup in Hi.
    destruct (html_files !! i) as [entry|] eqn:He; [|discriminate].
    injection Hi as <-. eauto.
  - intros (i & entry & He & Hr). eexists. split; [|exact Hr].
    apply list_elem_of_lookup. exists i. unfold tasks.
    rewrite make_tasks_lookup, He. reflexivity.
Qed.

Lemma ordered_titles_of (files : list file_entry) (results : list conversion)
    (known : list string) :
  (forall t, t ∈ map fst results <-> t ∈ known) ->
  map fst (ordered_results files results) =
  List.filter (fun t => bool_decide (t ∈ known))
              (map (fun entry => title_of (fst entry)) files).
Proof.
  intros Hmem. unfold ordered_results.
  induction files as [|x l IH]; [reflexivity|].
  change (omap ?g (?a :: ?r)) with
    (match g a with Some y => y :: omap g r | None => omap g r end).
  cbn [map List.filter].
  destruct (file_to_result results !! title_of (fst x)) as [r|] eqn:Hr.
  - destruct (file_to_result_some _ _ _ Hr) as [_ Ht].
    rewrite bool_decide_eq_true_2.
    + cbn [map]. rewrite Ht. f_equal. exact IH.
    + apply Hmem, file_to_result_is_some. eauto.
  - rewrite bool_decide_eq_false_2; [exact IH|].
    intros Hin. apply Hmem, file_to_result_is_some in Hin as [r' Hr'].
    congruence.
Qed.

(** The sections bear the titles of the discovered files that have a
    title in common with some converted file, in the order of
    discovery. *)
Lemma ordered_titles :
  map fst (ordered_results html_files processed) =
  List.filter (fun t => bool_decide (t ∈ map fst (own_results tasks))) titles.
Proof.
  apply ordered_titles_of. intros t. rewrite processed_perm. reflexivity.
Qed.

(** With pairwise distinct titles, the mapping gives back under the title
    of a file the result of that file, and nothing if its task failed. *)
Lemma lookup_own_result (i : nat) (entry : file_entry) :
  NoDup titles ->
  html_files !! i = Some entry ->
  file_to_result processed !! title_of (fst entry) =
  result_of (process_file cv w (fst entry) (length html_files) i).
Proof.
  intros Hnd Hi.
  destruct (result_of (process_file cv w (fst entry) (length html_files) i))
    as [r|] eqn:Hr.
  - rewrite <- (process_file_title _ _ _ _ _ _ Hr).
    apply file_to_result_own.
    + rewrite processed_perm. eapply sublist_NoDup; [exact Hnd|apply own_titles_sublist].
    + rewrite processed_perm. apply elem_of_own_results. eauto.
  - destruct (file_to_result processed !! title_of (fst entry)) as [r'|] eqn:Hr';
      [|reflexivity].
    apply file_to_result_some in Hr' as [Hin Ht].
    rewrite processed_perm in Hin.
    apply elem_of_own_results in Hin as (j & entry' & Hj & Hrj).
    pose proof (process_file_title _ _ _ _ _ _ Hrj) as Ht'.
    assert (i = j) as <-.
    { eapply NoDup_lookup; [exact Hnd| |]; unfold titles.
      - rewrite list_lookup_fmap, Hi. reflexivity.
      - rewrite list_lookup_fmap, Hj. cbn. congruence. }
    rewrite Hi in Hj. injection Hj as <-. congruence.
Qed.

(** With pairwise distinct titles, the list handed to [generate_output]
    is the list of the results of the tasks that succeeded, each file
    with its own result, in the order of discovery. *)
Lemma ordered_results_own :
  NoDup titles ->
  ordered_results html_files processed = own_results tasks.
Proof.
  intros Hnd. unfold own_results, tasks, make_tasks, ordered_results.
  symmetry. apply omap_imap_pointwise.
  intros i entry Hi. symmetry. apply lookup_own_result; assumption.
Qed.

End OrderedResults.

Section RunStructure.

Context `{E : Externals}.
Variable cv : converter.
Variable w : world.

Lemma remote_events_silent (t : list event) :
  Forall (fun e => is_remote_event e = true) t ->
  writes t = [] /\ stdout t = [].
Proof.
  induction 1 as [|e t He _ [IHw IHs]]; [split; reflexivity|].
  unfold writes, stdout in *.
  destruct e; try discriminate; cbn; rewrite ?IHw, ?IHs; split; reflexivity.
Qed.

Lemma attempts_remote_events (c : client) (remote : nat -> string -> reply)
    (prompt : string) (todo : list nat) :
  Forall (fun e => is_remote_event e = true) (events (attempts c remote prompt todo)).
Proof.
  induction todo as [|k todo IH]; [constructor|].
  assert (Hfa : forall error_str,
            Forall (fun e => is_remote_event e = true) (failed_attempt c error_str k)).
  { intros error_str. unfold failed_attempt, server_wait.
    destruct (suggested_delay error_str), (Z.of_nat k <? max_retries c - 1)%Z;
      repeat constructor. }
  destruct (remote k prompt) as [text|error_str] eqn:Hr.
  - rewrite (attempts_success _ _ _ _ _ _ Hr). repeat constructor.
  - destruct (Z.of_nat k <? max_retries c - 1)%Z eqn:Hk.
    + rewrite (attempts_fail_more _ _ _ _ _ _ Hr Hk). cbn [events fst].
      apply Forall_app. split; [apply Hfa|exact IH].
    + rewrite (attempts_fail_last _ _ _ _ _ _ Hr Hk). apply Hfa.
Qed.

Lemma process_file_remote_events (file_path : string) (total i : nat) :
  Forall (fun e => is_remote_event e = true)
         (events (process_file cv w file_path total i)).
Proof.
  unfold process_file, lift, mbind, io_bind, mret, io_ret.
  destruct (read_text w file_path) as [html_content|e]; [|constructor].
  pose proof (convert_unfold (api_client cv) (remote w i)
                (clean_html (remove_tags cv) html_content) (Path.name file_path))
    as [He _].
  pose proof (attempts_remote_events (api_client cv) (remote w i)
                (make_prompt (clean_html (remove_tags cv) html_content))
                (seq 0 (Z.to_nat (max_retries (api_client cv))))) as Hf.
  destruct (convert_html_to_markdown _ _ _ _) as [t [markdown|e]];
    cbn in He |- *; rewrite ?app_nil_r, He; constructor; auto.
Qed.

Lemma writes_app (t1 t2 : list event) : writes (t1 ++ t2) = writes t1 ++ writes t2.
Proof. unfold writes. apply omap_app. Qed.

Lemma stdout_app (t1 t2 : list event) : stdout (t1 ++ t2) = stdout t1 ++ stdout t2.
Proof. unfold stdout. apply omap_app. Qed.

(** The loop over the completed tasks returns the results that were
    gathered and writes no file. *)
Lemma collect_run (tasks : list (io conversion)) (total : nat) (order : list nat) :
  (forall task, task ∈ tasks -> writes (events task) = []) ->
  forall (acc : list conversion) (completed : nat),
  exists t,
    collect tasks total order acc completed =
      (t, Ok (acc ++ completed_results tasks order))
    /\ writes t = [].
Proof.
  intros Htasks. unfold completed_results.
  induction order as [|i order IH]; intros acc completed.
  - exists []. rewrite app_nil_r. split; reflexivity.
  - cbn [collect].
    change (omap ?g (?a :: ?r)) with
      (match g a with Some y => y :: omap g r | None => omap g r end).
    destruct (tasks !! i) as [[tc rc]|] eqn:Hi; rewrite ?Hi; [|apply IH].
    assert (Hw : writes tc = []).
    { apply (Htasks (tc, rc)). apply list_elem_of_lookup. eauto. }
    destruct rc as [result|e]; cbn.
    + destruct (IH (acc ++ [result]) (S completed)) as (t & -> & Ht).
      rewrite <- (app_assoc acc [result]). eexists. split; [reflexivity|].
      rewrite !writes_app, Hw. cbn. exact Ht.
    + destruct (IH acc completed) as (t & -> & Ht).
      eexists. split; [reflexivity|].
      rewrite !writes_app, Hw. cbn. exact Ht.
Qed.

Lemma ask_choice_no_write (output_path : string) (timestamp : Z) (inputs : list string) :
  writes (events (ask_choice output_path timestamp inputs)) = [].
Proof.
  induction inputs as [|line inputs IH]; [reflexivity|]. cbn [ask_choice].
  destruct (String.eqb (Py.strip line) "1"); [reflexivity|].
  destruct (String.eqb (Py.strip line) "2"); [reflexivity|].
  destruct (String.eqb (Py.strip line) "3"); [reflexivity|].
  destruct (ask_choice output_path timestamp inputs) as [t [r|e]];
    cbn in IH |- *; exact IH.
Qed.

Lemma check_output_file_no_write (output_path : string) :
  writes (events (check_output_file w output_path)) = [].
Proof.
  unfold check_output_file. destruct (path_exists w output_path); [|reflexivity].
  pose proof (ask_choice_no_write output_path (clock w) (stdin w)) as Ha.
  destruct (ask_choice output_path (clock w) (stdin w)) as [t [r|e]];
    cbn in Ha |- *; exact Ha.
Qed.

Lemma last_two_after {A} (l1 l2 : list A) (a x y d : A) :
  List.last (l1 ++ a :: l2 ++ [x; y]) d = y.
Proof.
  replace (l1 ++ a :: l2 ++ [x; y]) with ((l1 ++ a :: l2 ++ [x]) ++ [y]).
  - apply last_last.
  - rewrite <- app_assoc. cbn. rewrite <- app_assoc. reflexivity.
Qed.

(** A run that reaches the Write step writes, once, the text made by
    [generate_output] from the reordered results, and then reports the
    length of that list as the number of files processed. *)
Lemma convert_directory_writes (directory output_file : string)
    (t0 : list event) (output_path : string) :
  discover_html_files w directory <> [] ->
  check_output_file w (Path.join directory output_file) = (t0, Ok (Some output_path)) ->
  let ordered := final_results cv w directory in
  let total := length (discover_html_files w directory) in
  let run := convert_directory cv w directory output_file in
  written (events run) =
    Some (output_path, fst (write_results cv (length ordered) 0 ordered))
  /\ (snd (write_results cv (length ordered) 0 ordered) = Ok tt ->
      outcome run = Ok tt
      /\ List.last (stdout (events run)) "" =
         ("Successfully processed " ++ Py.str_of_nat (length ordered) ++ " out of "
          ++ Py.str_of_nat total ++ " files.")%string).
Proof.
  intros Hfiles Hcheck ordered total run.
  pose proof (check_output_file_no_write (Path.join directory output_file)) as Hw0.
  rewrite Hcheck in Hw0. change (writes t0 = []) in Hw0.
  subst run. unfold convert_directory.
  destruct (discover_html_files w directory) as [|f fs] eqn:Hd; [congruence|].
  rewrite Hcheck.
  destruct (collect_run (make_tasks cv w (f :: fs)) (length (f :: fs)) (completion w))
    with (acc := @nil conversion) (completed := 0) as (tc & Hc & Hwc).
  { intros task Hin. apply list_elem_of_lookup in Hin as [i Hi].
    rewrite make_tasks_lookup in Hi.
    destruct ((f :: fs) !! i) as [entry|]; [|discriminate].
    injection Hi as <-. apply remote_events_silent, process_file_remote_events. }
  cbn [app] in Hc.
  assert (Hordered : ordered =
            ordered_results (f :: fs)
              (completed_results (make_tasks cv w (f :: fs)) (completion w))).
  { subst ordered. unfold final_results. rewrite Hd. reflexivity. }
  unfold mbind, io_bind. cbn [emit]. rewrite Hc. unfold generate_output.
  rewrite <- Hordered.
  destruct (write_results cv (length ordered) 0 ordered) as [text r].
  destruct r as [[]|e]; cbn [events outcome fst snd app].
  - split.
    + unfold written. rewrite writes_app, Hw0.
      change (writes (Print ?a :: ?y)) with (writes y).
      rewrite writes_app, Hwc. reflexivity.
    + intros _. split; [reflexivity|].
      rewrite stdout_app. change (stdout (Print ?a :: ?y)) with (a :: stdout y).
      rewrite stdout_app.
      change (stdout [Write ?p ?s; Print ?x; Print ?y]) with [x; y].
      apply last_two_after.
  - split; [|discriminate].
    unfold written. rewrite writes_app, Hw0.
    change (writes (Print ?a :: ?y)) with (writes y).
    rewrite writes_app, Hwc. reflexivity.
Qed.

End RunStructure.

(** C1.  Three files with modification times 1 < 2 < 3, the first and
    the third of which have the same title.  When the tasks complete in
    the order of discovery, the result of the third file is written
    before the result of the second, and again after it; when they
    complete in the order third, first, second, the result of the first
    file is written twice and the result of the third is lost.  The
    output does not list the results in the order of discovery, and it
    changes with the order of completion. *)
Theorem collision_breaks_discovery_order :
  let run_in_order := convert_directory default_converter interleaved_in_order
                        "d" "output.md" in
  let run_reordered := convert_directory default_converter interleaved_reordered
                         "d" "output.md" in
  discover_html_files interleaved_in_order "d"
    = [("d/a_b.html", 1%Q); ("d/c.html", 2%Q); ("d/a b.html", 3%Q)]
  /\ own_results (make_tasks default_converter interleaved_in_order
                    (discover_html_files interleaved_in_order "d"))
    = [("a b", Some "R1"); ("c", Some "R2"); ("a b", Some "R3")]
  /\ final_results default_converter interleaved_in_order "d"
    = [("a b", Some "R3"); ("c", Some "R2"); ("a b", Some "R3")]
  /\ written (events run_in_order)
    = Some ("d/output.md",
            ("# a b" ++ nl ++ nl ++ "R3" ++ nl ++ nl ++ "---" ++ nl ++ nl
             ++ "# c" ++ nl ++ nl ++ "R2" ++ nl ++ nl ++ "---" ++ nl ++ nl
             ++ "# a b" ++ nl ++ nl ++ "R3" ++ nl ++ nl)%string)
  /\ final_results default_converter interleaved_reordered "d"
    = [("a b", Some "R1"); ("c", Some "R2"); ("a b", Some "R1")]
  /\ written (events run_reordered) <> written (events run_in_order).
Proof.
  repeat split; try (vm_compute; reflexivity). vm_compute. discriminate.
Qed.

(** C2.  Two files whose names give the same title: the mapping keeps
    one result for the title, so the result of the second file stands in
    the place of both and the result of the first is lost. *)
Theorem title_collision_crosses_results :
  let html_files := discover_html_files colliding_files "d" in
  own_results (make_tasks default_converter colliding_files html_files)
    = [("a b", Some "first"); ("a b", Some "second")]
  /\ final_results default_converter colliding_files "d"
    = [("a b", Some "second"); ("a b", Some "second")].
Proof. split; vm_compute; reflexivity. Qed.

(** C6.  Two files whose names give the same title, the first of which
    fails on every attempt: a section stands in the output at the place
    of the failed file, and the report counts two processed files out of
    two. *)
Theorem failed_file_counted_on_collision :
  let html_files := discover_html_files colliding_files_one_down "d" in
  let run := convert_directory default_converter colliding_files_one_down
               "d" "output.md" in
  own_results (make_tasks default_converter colliding_files_one_down html_files)
    = [("a b", Some "second")]
  /\ final_results default_converter colliding_files_one_down "d"
    = [("a b", Some "second"); ("a b", Some "second")]
  /\ outcome run = Ok tt
  /\ List.last (stdout (events run)) ""
    = "Successfully processed 2 out of 2 files.".
Proof. repeat split; vm_compute; reflexivity. Qed.

(* ===================================================================== *)
(** * Properties of the command line *)
(* ===================================================================== *)

Section Prompt.

(** After any number of invalid answers, the answer 3 ends the prompt
    with [None]; the loop only prints. *)
Lemma ask_choice_cancel (output_path : string) (timestamp : Z)
    (junk : list string) (line : string) (rest : list string) :
  Forall (fun l => valid_choice l = false) junk ->
  Py.strip line = "3" ->
  exists t,
    ask_choice output_path timestamp (junk ++ line :: rest) = (t, Ok None)
    /\ Forall (fun e => is_print e = true) t.
Proof.
  intros Hjunk Hline. induction Hjunk as [|l junk Hl _ (t & IH & Ht)].
  - cbn [app ask_choice]. rewrite Hline. cbn. eexists. split; [reflexivity|].
    repeat constructor.
  - cbn [app ask_choice]. unfold valid_choice in Hl.
    apply orb_false_iff in Hl as [Hl H3]. apply orb_false_iff in Hl as [H1 H2].
    rewrite H1, H2, H3, IH. cbn. eexists. split; [reflexivity|].
    constructor; [reflexivity|exact Ht].
Qed.

Lemma check_output_file_cancel (w : world) (output_path : string)
    (junk : list string) (line : string) (rest : list string) :
  path_exists w output_path = true ->
  stdin w = junk ++ line :: rest ->
  Forall (fun l => valid_choice l = false) junk ->
  Py.strip line = "3" ->
  exists t,
    check_output_file w output_path = (t, Ok None)
    /\ Forall (fun e => is_print e = true) t.
Proof.
  intros Hexists Hstdin Hjunk Hline. unfold check_output_file.
  rewrite Hexists, Hstdin.
  destruct (ask_choice_cancel output_path (clock w) junk line rest Hjunk Hline)
    as (t & -> & Ht).
  cbn. eexists. split; [reflexivity|]. repeat (constructor; [reflexivity|]).
  exact Ht.
Qed.

End Prompt.

(** C9 (amended).  When the output path exists and the user answers 3 at
    the prompt, after any number of invalid answers, [convert_directory]
    returns at once and so does [main]: the process ends normally, with
    exit code 0, having printed the prompt and its messages and done
    nothing else. *)
Theorem cancel_returns_normally `{E : Externals} (a : args) (w : world)
    (config : json) (key : string) (cv : converter)
    (junk : list string) (line : string) (rest : list string) :
  startup a w = Ready config key cv ->
  discover_html_files w (directory a) <> [] ->
  path_exists w (Path.join (directory a) (output a)) = true ->
  stdin w = junk ++ line :: rest ->
  Forall (fun l => valid_choice l = false) junk ->
  Py.strip line = "3" ->
  snd (main a w) = Returned
  /\ exit_code (snd (main a w)) = Some 0%Z
  /\ Forall (fun e => is_print e = true) (fst (main a w)).
Proof.
  intros Hstart Hfiles Hexists Hstdin Hjunk Hline.
  destruct (check_output_file_cancel w _ junk line rest Hexists Hstdin Hjunk Hline)
    as (t & Hcheck & Ht).
  unfold main. rewrite Hstart. unfold convert_directory.
  destruct (discover_html_files w (directory a)) as [|f fs]; [congruence|].
  rewrite Hcheck. cbn. rewrite app_nil_r. repeat split. exact Ht.
Qed.

Lemma cancel_returns_normally_witness :
  snd (@main plain_externals plain_args cancelled_run) = Returned
  /\ exit_code (snd (@main plain_externals plain_args cancelled_run)) = Some 0%Z
  /\ Forall (fun e => is_print e = true)
            (fst (@main plain_externals plain_args cancelled_run)).
Proof.
  apply (@cancel_returns_normally plain_externals plain_args cancelled_run
           (JObj ∅) "key" default_converter [] "3" []).
  - vm_compute. reflexivity.
  - vm_compute. discriminate.
  - reflexivity.
  - reflexivity.
  - constructor.
  - reflexivity.
Defined.

(** The claim as stated fails: the output path exists, the user answers
    3, and the process ends with exit code 0. *)
Lemma cancel_exit_code_is_zero :
  path_exists cancelled_run (Path.join (directory plain_args) (output plain_args)) = true
  /\ stdin cancelled_run = ["3"]
  /\ exit_code (snd (@main plain_externals plain_args cancelled_run)) = Some 0%Z
  /\ exit_code (snd (@main plain_externals plain_args cancelled_run)) <> Some 1%Z.
Proof. repeat split; vm_compute; congruence. Qed.

(** C10.  When the loaded configuration is a mapping without the key
    [processing], a nonzero [--concurrent] makes the override step raise
    [KeyError]: nothing catches it, no converter is created and nothing
    is printed or written.  With [--concurrent 0] the override step
    leaves the configuration as it is. *)
Theorem concurrent_override_needs_processing `{E : Externals} (a : args) (w : world)
    (m : gmap string json) (key : string) (n : Z) :
  config_file w (config a) = Loaded (JObj m) ->
  m !! "processing" = None ->
  logging_error w = None ->
  find_api_key a w = Some key ->
  concurrent a = Some n ->
  n <> 0%Z ->
  override_config a (JObj m) = Raise (KeyError "processing")
  /\ main a w = ([], Uncaught (KeyError "processing"))
  /\ (forall (a0 : args) (config0 : json),
        concurrent a0 = Some 0%Z -> override_config a0 config0 = Ok config0).
Proof.
  intros Hload Hkey Hlog Hapi Hconc Hn.
  assert (Hover : override_config a (JObj m) = Raise (KeyError "processing")).
  { unfold override_config. rewrite Hconc.
    rewrite (proj2 (Z.eqb_neq n 0) Hn).
    unfold set_max_concurrent, Config.getitem. rewrite Hkey. reflexivity. }
  split; [exact Hover|]. split.
  - unfold main, startup. rewrite Hload, Hlog, Hapi, Hover. reflexivity.
  - intros a0 config0 H0. unfold override_config. rewrite H0. reflexivity.
Qed.

Lemma concurrent_override_needs_processing_witness :
  @main plain_externals
     {| directory := "d"; api_key := None; config := "config.json";
        concurrent := Some 5%Z; log_level := None; output := "output.md" |}
     three_files
  = ([], Uncaught (KeyError "processing")).
Proof.
  refine (proj1 (proj2 (@concurrent_override_needs_processing plain_externals
            _ three_files ∅ "key" 5 _ _ _ _ _ _))).
  - reflexivity.
  - reflexivity.
  - reflexivity.
  - reflexivity.
  - reflexivity.
  - discriminate.
Defined.

(** When [processing] is present but is not a mapping, the same step
    raises [TypeError] instead. *)
Example override_processing_not_a_mapping :
  override_config
    {| directory := "d"; api_key := None; config := "config.json";
       concurrent := Some 5%Z; log_level := None; output := "output.md" |}
    (JObj (<["processing" := JInt 5]> ∅))
  = Raise TypeError.
Proof. reflexivity. Qed.

(* ===================================================================== *)
(** * Further properties: the output file *)
(* ===================================================================== *)

Lemma append_assoc (a b c : string) : ((a ++ b) ++ c = a ++ (b ++ c))%string.
Proof.
  induction a as [|x a IH]; [reflexivity|].
  change (String x ((a ++ b) ++ c) = String x (a ++ (b ++ c)))%string.
  rewrite IH. reflexivity.
Qed.

Lemma append_nil_r (a : string) : (a ++ "" = a)%string.
Proof.
  induction a as [|x a IH]; [reflexivity|].
  change (String x (a ++ "") = String x a)%string. rewrite IH. reflexivity.
Qed.

Lemma write_results_join (cv : converter) (results : list (string * string)) :
  forall i,
  write_results cv (i + length results) i (map with_body results) =
  (String.concat (separator_text cv) (map (section_text cv) results), Ok tt).
Proof.
  induction results as [|r results IH]; intros i; [reflexivity|].
  destruct r as [filename content].
  cbn [map with_body fst snd write_results length].
  replace (i + S (length results)) with (S i + length results) by lia.
  rewrite IH. fold (section_header cv filename).
  destruct results as [|r' results].
  - cbn [length map String.concat].
    rewrite (proj2 (Z.ltb_ge _ _)) by lia.
    change (section_text cv (filename, content))
      with (section_header cv filename ++ Py.strip content ++ nl ++ nl)%string.
    rewrite !append_nil_r. reflexivity.
  - rewrite (proj2 (Z.ltb_lt _ _)) by (cbn [length]; lia).
    cbn [map String.concat]. fold (separator_text cv).
    change (section_text cv (filename, content))
      with (section_header cv filename ++ Py.strip content ++ nl ++ nl)%string.
    rewrite !append_assoc. reflexivity.
Qed.

(** X1.  When every result has a body, the file is the sections joined by
    the separator line: each section is the optional header, the trimmed
    body and a blank line, and no separator follows the last section. *)
Theorem generate_output_joins_sections (cv : converter)
    (results : list (string * string)) (output_path : string) :
  generate_output cv (map with_body results) output_path =
  ([Write output_path
      (String.concat (separator_text cv) (map (section_text cv) results))],
   Ok tt).
Proof.
  unfold generate_output. rewrite length_map.
  pose proof (write_results_join cv results 0) as Hjoin. cbn [Nat.add] in Hjoin.
  rewrite Hjoin. reflexivity.
Qed.

Lemma write_results_none (cv : converter) (pre : list (string * string))
    (filename : string) (post : list conversion) (total : nat) :
  forall i,
  i + length pre < total ->
  write_results cv total i (map with_body pre ++ (filename, None) :: post) =
  ((String.concat "" (map (fun r => section_text cv r ++ separator_text cv) pre)
    ++ section_header cv filename)%string,
   Raise AttributeError).
Proof.
  induction pre as [|r pre IH]; intros i Hi.
  - cbn. reflexivity.
  - destruct r as [title content]. cbn [length] in Hi.
    cbn [map app with_body fst snd write_results].
    rewrite (IH (S i)) by lia.
    rewrite (proj2 (Z.ltb_lt _ _)) by lia.
    fold (section_header cv title). fold (separator_text cv).
    assert (Hconcat : forall (x : string) (l : list string) (tail : string),
              (String.concat "" (x :: l) ++ tail = x ++ String.concat "" l ++ tail)%string).
    { intros x l tail. destruct l as [|y l]; cbn [String.concat].
      - reflexivity.
      - rewrite !append_assoc. reflexivity. }
    cbn [map]. rewrite Hconcat.
    change (section_text cv (title, content))
      with (section_header cv title ++ Py.strip content ++ nl ++ nl)%string.
    rewrite !append_assoc. reflexivity.
Qed.

(** X2.  A result without a body (the conversion returned [None]) makes
    [generate_output] raise [AttributeError] after it has written the
    sections that come before, each followed by the separator, and the
    header of the section it fails on: the file is left incomplete. *)
Theorem generate_output_none_body (cv : converter) (pre : list (string * string))
    (filename : string) (post : list conversion) (output_path : string) :
  generate_output cv (map with_body pre ++ (filename, None) :: post) output_path =
  ([Write output_path
      (String.concat "" (map (fun r => section_text cv r ++ separator_text cv) pre)
       ++ section_header cv filename)%string],
   Raise AttributeError).
Proof.
  unfold generate_output.
  rewrite (write_results_none cv pre filename post _ 0); [reflexivity|].
  rewrite length_app, length_map. cbn [length]. lia.
Qed.

(* ===================================================================== *)
(** * Further properties: the retry loop *)
(* ===================================================================== *)

(** X3.  With [max_retries] zero or negative the conversion takes its
    permit, makes no request and returns [None]: it neither converts nor
    raises. *)
Theorem convert_without_attempts (c : client) (remote : nat -> string -> reply)
    (html_content filename : string) :
  (max_retries c <= 0)%Z ->
  convert_html_to_markdown c remote html_content filename = ([Acquire], Ok None).
Proof.
  intros Hmax. unfold convert_html_to_markdown, range.
  replace (Z.to_nat (max_retries c)) with 0 by lia. reflexivity.
Qed.

Lemma convert_without_attempts_witness :
  convert_html_to_markdown
    {| max_retries := 0; retry_delay_base := 1; rate_limit := 875 |}
    always_down "<p>x</p>" "x.html" = ([Acquire], Ok None).
Proof. apply convert_without_attempts. cbn. lia. Defined.

(** X4.  When the last attempt fails with a 429 RESOURCE_EXHAUSTED error
    that carries a retry delay, the client still sleeps that delay, and
    only then propagates the failure: the run ends with the request and
    the sleep, no attempt follows. *)
Theorem last_attempt_still_waits (c : client) (remote : nat -> string -> reply)
    (html_content filename : string) (d : Z) :
  let prompt := make_prompt html_content in
  let n := Z.to_nat (max_retries c) in
  let run := convert_html_to_markdown c remote html_content filename in
  (1 <= max_retries c)%Z ->
  (forall k, k < n -> is_failure (remote k prompt) = true) ->
  suggested_delay (error_of (remote (n - 1) prompt)) = Some d ->
  exists pre,
    events run = pre ++ [ApiCall; Sleep (inject_Z d)]
    /\ count_calls pre = n - 1
    /\ outcome run = Raise (ApiError (error_of (remote (n - 1) prompt))).
Proof.
  intros prompt n run Hmax Hfail Hd.
  destruct (convert_all_fail c remote html_content filename Hmax Hfail) as [He Ho].
  fold run in He, Ho. fold prompt in He, Ho. fold n in He, Ho.
  destruct n as [|m] eqn:Hn; [lia|].
  replace (S m - 1) with m in * by lia.
  exists (Acquire :: failed_run c remote prompt 0 m). split; [|split].
  - rewrite He. unfold failed_run. rewrite seq_S, flat_map_app.
    cbn [flat_map Nat.add]. unfold failed_attempt at 2, server_wait.
    rewrite Hd, (proj2 (Z.ltb_ge _ _)) by lia.
    reflexivity.
  - unfold count_calls. cbn [List.filter is_call]. apply failed_run_calls.
  - exact Ho.
Qed.

Lemma last_attempt_still_waits_witness :
  exists pre,
    events (convert_html_to_markdown three_attempts (fun _ _ => Fails quota_error)
              "<p>x</p>" "x.html") = pre ++ [ApiCall; Sleep (inject_Z 7)]
    /\ count_calls pre = 2
    /\ outcome (convert_html_to_markdown three_attempts (fun _ _ => Fails quota_error)
              "<p>x</p>" "x.html") = Raise (ApiError quota_error).
Proof.
  apply (last_attempt_still_waits three_attempts (fun _ _ => Fails quota_error)
           "<p>x</p>" "x.html" 7).
  - cbn. lia.
  - intros k _. reflexivity.
  - vm_compute. reflexivity.
Defined.

Lemma total_time_app (l1 l2 : list Q) :
  (total_time (l1 ++ l2) == total_time l1 + total_time l2)%Q.
Proof.
  induction l1 as [|x l1 IH].
  - change (total_time l2 == 0 + total_time l2)%Q. ring.
  - change (x + total_time (l1 ++ l2) == (x + total_time l1) + total_time l2)%Q.
    rewrite IH. ring.
Qed.

Lemma total_backoff (c : client) (m : nat) :
  (total_time (map (backoff c) (seq 0 m))
   == retry_delay_base c * (inject_Z (2 ^ Z.of_nat m) - 1))%Q.
Proof.
  induction m as [|m IH].
  - change (0 == retry_delay_base c * (1 - 1))%Q. ring.
  - rewrite seq_S, map_app, total_time_app, IH.
    change (total_time (map (backoff c) [0 + m])) with (backoff c m + 0)%Q.
    unfold backoff.
    rewrite Nat2Z.inj_succ, Z.pow_succ_r by lia.
    rewrite inject_Z_mult. change (inject_Z 2) with 2%Q. ring.
Qed.

(** X5.  When every attempt fails and no failure carries a delay
    suggested by the server, the client has slept
    [retry_delay_base * (2 ^ (max_retries - 1) - 1)] in all before it
    gives up. *)
Theorem total_wait_before_giving_up (c : client) (remote : nat -> string -> reply)
    (html_content filename : string) :
  let prompt := make_prompt html_content in
  let n := Z.to_nat (max_retries c) in
  let run := convert_html_to_markdown c remote html_content filename in
  (1 <= max_retries c)%Z ->
  (forall k, k < n -> is_failure (remote k prompt) = true) ->
  (forall k, k < n -> suggested_delay (error_of (remote k prompt)) = None) ->
  (total_time (sleeps (events run))
   == retry_delay_base c * (inject_Z (2 ^ (max_retries c - 1)) - 1))%Q.
Proof.
  intros prompt n run Hmax Hfail Hnone.
  destruct (convert_all_fail c remote html_content filename Hmax Hfail) as [He _].
  fold run in He. fold prompt in He. fold n in He.
  rewrite He. subst prompt n.
  rewrite (sleeps_all_fail c remote html_content Hmax Hnone).
  rewrite total_backoff. set (n := Z.to_nat (max_retries c)).
  replace (Z.of_nat (n - 1)) with (max_retries c - 1)%Z by (subst n; lia).
  reflexivity.
Qed.

Lemma total_wait_before_giving_up_witness :
  (total_time (sleeps (events (convert_html_to_markdown three_attempts always_down
                                 "<p>x</p>" "x.html"))) == 3)%Q.
Proof.
  rewrite (total_wait_before_giving_up three_attempts always_down "<p>x</p>" "x.html").
  - reflexivity.
  - cbn. lia.
  - intros k _. reflexivity.
  - intros k _. reflexivity.
Defined.

(* ===================================================================== *)
(** * Further properties: configuration and start-up *)
(* ===================================================================== *)

Lemma split_cons (sep : ascii) (s : string) :
  exists k rest, Py.split sep s = k :: rest.
Proof.
  destruct s as [|c s]; cbn; [eauto|].
  destruct (Ascii.eqb c sep); [eauto|].
  destruct (Py.split sep s); eauto.
Qed.

Lemma get_unfold (config : json) (key : string) (default : json) :
  Config.get config key default =
  Ok (default_or (Config.traverse config (Py.split "." key)) default).
Proof. unfold Config.get. apply get_loop_traverse. Qed.

(** X6.  A configuration whose top level is not a mapping (a list, a
    string, a number, [null]) yields the caller's default for every
    key. *)
Theorem get_on_non_mapping (config : json) (key : string) (default : json) :
  (forall m, config <> JObj m) ->
  Config.get config key default = Ok default.
Proof.
  intros Hconfig. rewrite get_unfold.
  destruct (split_cons "." key) as (k & rest & ->).
  destruct config; try reflexivity. destruct (Hconfig m eq_refl).
Qed.

Lemma get_on_non_mapping_witness :
  Config.get (JArr [JInt 1]) "gemini.max_retries" (JInt 3) = Ok (JInt 3).
Proof. apply get_on_non_mapping. intros m. discriminate. Defined.

(** X7.  With such a configuration, as with an empty one, the converter
    is built from the defaults of the source: no tags to remove, 3
    attempts, base delay 1, 875 permits per minute, 20 concurrent
    conversions, the separator [---] and headers. *)
Theorem defaults_without_mapping (config : json) :
  (forall m, config <> JObj m) ->
  new_converter config = Ok (Some default_converter).
Proof.
  intros Hconfig.
  assert (Hget : forall key default, Config.get config key default = Ok default).
  { intros key default. rewrite get_unfold.
    destruct (split_cons "." key) as (k & rest & ->).
    destruct config; try reflexivity. destruct (Hconfig m eq_refl). }
  unfold new_converter. rewrite !Hget. reflexivity.
Qed.

Lemma defaults_without_mapping_witness :
  new_converter JNull = Ok (Some default_converter).
Proof. apply defaults_without_mapping. intros m. discriminate. Defined.

Section Override.

Variables (config config' : json) (n : Z).
Hypothesis override : set_max_concurrent config n = Ok config'.

Lemma override_shape :
  exists m p,
    config = JObj m /\ m !! "processing" = Some (JObj p)
    /\ config' = JObj (<["processing" := JObj (<["max_concurrent" := JInt n]> p)]> m).
Proof.
  unfold set_max_concurrent, Config.getitem, setitem in override.
  destruct config as [| | | | | |m]; try discriminate.
  destruct (m !! "processing") as [processing|] eqn:Hp; [|discriminate].
  destruct processing as [| | | | | |p]; try discriminate.
  cbn in override. injection override as <-. eauto.
Qed.

Lemma override_get_max_concurrent (default : json) :
  Config.get config' "processing.max_concurrent" default = Ok (JInt n).
Proof.
  destruct override_shape as (m & p & _ & _ & ->).
  rewrite get_unfold.
  change (Py.split "." "processing.max_concurrent")
    with ["processing"; "max_concurrent"].
  cbn [Config.traverse]. rewrite lookup_insert_eq, lookup_insert_eq. reflexivity.
Qed.

Lemma override_get_other_section (key : string) (default : json)
    (k : string) (rest : list string) :
  Py.split "." key = k :: rest -> k <> "processing" ->
  Config.get config' key default = Config.get config key default.
Proof.
  intros Hsplit Hk. destruct override_shape as (m & p & -> & _ & ->).
  rewrite !get_unfold, Hsplit. cbn [Config.traverse].
  rewrite lookup_insert_ne by congruence. reflexivity.
Qed.

Lemma override_get_other_setting (key : string) (default : json)
    (k : string) (rest : list string) :
  Py.split "." key = "processing" :: k :: rest -> k <> "max_concurrent" ->
  Config.get config' key default = Config.get config key default.
Proof.
  intros Hsplit Hk. destruct override_shape as (m & p & -> & Hp & ->).
  rewrite !get_unfold, Hsplit. cbn [Config.traverse].
  rewrite lookup_insert_eq, Hp. rewrite lookup_insert_ne by congruence.
  reflexivity.
Qed.

End Override.

(** X8.  After the override of [--concurrent] has succeeded,
    [processing.max_concurrent] reads as the given number, and every key
    of another section, as well as every other key of the section
    [processing], reads as before. *)
Theorem override_then_get (config config' : json) (n : Z) :
  set_max_concurrent config n = Ok config' ->
  (forall default,
      Config.get config' "processing.max_concurrent" default = Ok (JInt n))
  /\ (forall key default k rest,
      Py.split "." key = k :: rest -> k <> "processing" ->
      Config.get config' key default = Config.get config key default)
  /\ (forall key default k rest,
      Py.split "." key = "processing" :: k :: rest -> k <> "max_concurrent" ->
      Config.get config' key default = Config.get config key default).
Proof.
  intros Hset. split; [|split].
  - intros default. apply (override_get_max_concurrent config config' n Hset).
  - intros key default k rest. apply (override_get_other_section config config' n Hset).
  - intros key default k rest. apply (override_get_other_setting config config' n Hset).
Qed.

Lemma override_then_get_witness :
  exists config',
    set_max_concurrent
      (JObj (<["processing" := JObj (<["rate_limit_per_minute" := JInt 60]> ∅)]> ∅)) 5
      = Ok config'
    /\ Config.get config' "processing.max_concurrent" (JInt 20) = Ok (JInt 5)
    /\ Config.get config' "processing.rate_limit_per_minute" (JInt 875) = Ok (JInt 60).
Proof.
  destruct (set_max_concurrent
              (JObj (<["processing" := JObj (<["rate_limit_per_minute" := JInt 60]> ∅)]> ∅)) 5)
    as [config'|e] eqn:Hset; [|vm_compute in Hset; discriminate].
  exists config'. split; [reflexivity|].
  destruct (override_then_get _ config' 5 Hset) as (Hmax & _ & Hother).
  split; [apply Hmax|].
  rewrite (Hother "processing.rate_limit_per_minute" (JInt 875)
             "rate_limit_per_minute" []); [reflexivity|reflexivity|discriminate].
Defined.

(** X9.  A nonzero [--concurrent] that passes start-up is the size of the
    semaphore of the converter, whatever the configuration file says. *)
Theorem concurrent_reaches_converter (a : args) (w : world) (final : json)
    (key : string) (cv : converter) (n : Z) :
  startup a w = Ready final key cv ->
  concurrent a = Some n ->
  n <> 0%Z ->
  max_concurrent cv = n.
Proof.
  intros Hstart Hconc Hn. unfold startup in Hstart.
  destruct (config_file w (config a)) as [| |loaded]; try discriminate.
  destruct (logging_error w); [discriminate|].
  destruct (find_api_key a w); [|discriminate].
  destruct (override_config a loaded) as [config0|e] eqn:Hover; [|discriminate].
  assert (Hset : set_max_concurrent loaded n = Ok config0).
  { unfold override_config in Hover. rewrite Hconc in Hover.
    rewrite (proj2 (Z.eqb_neq n 0) Hn) in Hover. exact Hover. }
  unfold new_converter in Hstart.
  rewrite (override_get_max_concurrent loaded config0 n Hset) in Hstart.
  rewrite !get_unfold in Hstart. cbn [rbind as_int] in Hstart.
  repeat match type of Hstart with
         | context [match ?x with Some _ => _ | None => _ end] =>
             destruct x; try discriminate
         end.
  destruct (n <? 0)%Z; [discriminate|].
  injection Hstart as _ _ <-. reflexivity.
Qed.

Lemma concurrent_reaches_converter_witness :
  exists final key cv,
    startup tuned_args tuned_world = Ready final key cv /\ max_concurrent cv = 5%Z.
Proof.
  destruct (startup tuned_args tuned_world) as [t status|final key cv] eqn:Hstart.
  - vm_compute in Hstart. discriminate.
  - exists final, key, cv. split; [reflexivity|].
    apply (concurrent_reaches_converter tuned_args tuned_world final key cv 5 Hstart);
      [reflexivity|discriminate].
Defined.

(** X10.  The API key is the [--api-key] argument when it is given and
    not empty, and otherwise the environment variable when that is set
    and not empty.  Without either, [main] prints the error and exits
    with status 1 before it looks at the directory. *)
Theorem api_key_precedence (a : args) (w : world) :
  (forall k,
      find_api_key a w = Some k <->
      k <> "" /\ (api_key a = Some k
                  \/ ((api_key a = None \/ api_key a = Some "")
                      /\ getenv_api_key w = Some k)))
  /\ (forall `{E : Externals} loaded,
        config_file w (config a) = Loaded loaded ->
        logging_error w = None ->
        find_api_key a w = None ->
        main a w =
        ([Print "Error: API key required. Use --api-key or set GEMINI_API_KEY environment variable."],
         SysExit 1)).
Proof.
  split.
  - intros k.
    assert (Hsome : forall o : option string,
              match o with
              | Some k0 => if String.eqb k0 "" then None else Some k0
              | None => None
              end = Some k <-> o = Some k /\ k <> "").
    { intros [k0|]; [|split; [discriminate|intros [[=] _]]].
      destruct (String.eqb_spec k0 "") as [->|Hk0]; split.
      - discriminate.
      - intros [[= <-] Hk]. congruence.
      - intros [= <-]. split; [reflexivity|exact Hk0].
      - intros [[= <-] _]. reflexivity. }
    unfold find_api_key. rewrite Hsome.
    destruct (api_key a) as [arg|].
    + destruct (String.eqb_spec arg "") as [->|Harg].
      * split.
        -- intros [Henv Hk]. split; [exact Hk|]. right. split; [right; reflexivity|exact Henv].
        -- intros [Hk [[= <-]|[_ Henv]]]; [congruence|]. split; assumption.
      * split.
        -- intros [[= <-] Hk]. split; [exact Hk|]. left. reflexivity.
        -- intros [Hk [[= <-]|[[[=]|[= ->]] _]]]; [|congruence].
           split; [reflexivity|exact Hk].
    + split.
      * intros [Henv Hk]. split; [exact Hk|]. right. split; [left; reflexivity|exact Henv].
      * intros [Hk [[=]|[_ Henv]]]. split; assumption.
  - intros E loaded Hload Hlog Hkey. unfold main, startup.
    rewrite Hload, Hlog, Hkey. reflexivity.
Qed.

Lemma api_key_precedence_witness :
  find_api_key tuned_args tuned_world = Some "key".
Proof.
  apply (proj1 (api_key_precedence tuned_args tuned_world)).
  split; [discriminate|]. right. split; [right; reflexivity|reflexivity].
Defined.

(* ===================================================================== *)
(** * Further properties: discovery and the prompt *)
(* ===================================================================== *)

Lemma sort_by_mtime_nil (l : list file_entry) : sort_by_mtime l = [] -> l = [].
Proof.
  intros Hs. pose proof (sort_by_mtime_perm l) as Hp. rewrite Hs in Hp.
  symmetry. apply Permutation_nil_l, Hp.
Qed.

Lemma discover_nil (w : world) (directory : string) :
  discover_html_files w directory = [] <->
  dir_exists w directory = false \/ glob_html w directory = [].
Proof.
  unfold discover_html_files. destruct (dir_exists w directory).
  - split.
    + intros Hs. right. apply sort_by_mtime_nil, Hs.
    + intros [Hd| ->]; [discriminate|reflexivity].
  - split; [left|]; reflexivity.
Qed.

(** X11.  A directory that does not exist, or that holds no HTML file, is
    not an error: the run prints that no HTML file was found and ends
    normally, without asking about the output file, converting or
    writing. *)
Theorem no_files_no_work `{E : Externals} (a : args) (w : world) (final : json)
    (key : string) (cv : converter) :
  startup a w = Ready final key cv ->
  dir_exists w (directory a) = false \/ glob_html w (directory a) = [] ->
  main a w = ([Print "No HTML files found in the directory."], Returned).
Proof.
  intros Hstart Hnone. apply discover_nil in Hnone.
  unfold main, convert_directory. rewrite Hstart, Hnone. reflexivity.
Qed.

Lemma no_files_no_work_witness :
  @main plain_externals plain_args (directory_world [] always_down_tasks [] true ["1"])
  = ([Print "No HTML files found in the directory."], Returned).
Proof.
  apply (@no_files_no_work plain_externals plain_args _ (JObj ∅) "key" default_converter).
  - vm_compute. reflexivity.
  - right. reflexivity.
Defined.

Section PromptLoop.

Variables (output_path : string) (timestamp : Z).

(** Invalid answers are answered by a message each, and the loop goes on
    with the next line. *)
Lemma ask_choice_skips (junk rest : list string) :
  Forall (fun l => valid_choice l = false) junk ->
  ask_choice output_path timestamp (junk ++ rest) =
  (map (fun _ => invalid_line) junk
     ++ events (ask_choice output_path timestamp rest),
   outcome (ask_choice output_path timestamp rest)).
Proof.
  induction 1 as [|l junk Hl _ IH].
  - cbn. destruct (ask_choice output_path timestamp rest); reflexivity.
  - cbn [app ask_choice map]. unfold valid_choice in Hl.
    apply orb_false_iff in Hl as [Hl H3]. apply orb_false_iff in Hl as [H1 H2].
    rewrite H1, H2, H3, IH. reflexivity.
Qed.

Lemma ask_choice_prints (inputs : list string) :
  Forall (fun e => is_print e = true) (events (ask_choice output_path timestamp inputs)).
Proof.
  induction inputs as [|line inputs IH]; [constructor|]. cbn [ask_choice].
  destruct (String.eqb (Py.strip line) "1"); [constructor|].
  destruct (String.eqb (Py.strip line) "2"); [constructor|].
  destruct (String.eqb (Py.strip line) "3"); [repeat constructor|].
  destruct (ask_choice output_path timestamp inputs) as [t [r|e]];
    cbn in IH |- *; constructor; auto.
Qed.

End PromptLoop.

Lemma check_output_file_prints (w : world) (output_path : string) :
  Forall (fun e => is_print e = true) (events (check_output_file w output_path)).
Proof.
  unfold check_output_file. destruct (path_exists w output_path); [|constructor].
  pose proof (ask_choice_prints output_path (clock w) (stdin w)) as Ha.
  destruct (ask_choice output_path (clock w) (stdin w)) as [t [r|e]];
    cbn in Ha |- *; repeat (constructor; [reflexivity|]); exact Ha.
Qed.

(** X12.  At the prompt, after any number of invalid answers, the answer
    1 keeps the output path as it is, and the answer 2 gives the path, in
    the same directory, named after the stem of the output file, the
    time in seconds and the extension [.md]; what is typed after the
    answer is not read. *)
Theorem prompt_overwrite_or_rename (w : world) (output_path : string)
    (junk : list string) (line : string) (rest : list string) :
  path_exists w output_path = true ->
  stdin w = junk ++ line :: rest ->
  Forall (fun l => valid_choice l = false) junk ->
  (Py.strip line = "1" ->
     outcome (check_output_file w output_path) = Ok (Some output_path))
  /\ (Py.strip line = "2" ->
     outcome (check_output_file w output_path) =
     Ok (Some (Path.join (Path.dirname output_path)
                 (Path.stem output_path ++ "_" ++ Py.str_of_Z (clock w) ++ ".md")%string))).
Proof.
  intros Hexists Hstdin Hjunk.
  assert (Hout : outcome (check_output_file w output_path) =
                 outcome (ask_choice output_path (clock w) (line :: rest))).
  { unfold check_output_file. rewrite Hexists, Hstdin.
    rewrite (ask_choice_skips _ _ junk (line :: rest) Hjunk).
    destruct (ask_choice output_path (clock w) (line :: rest)) as [t [r|e]];
      reflexivity. }
  rewrite Hout. split; intros Hline; cbn [ask_choice]; rewrite Hline; reflexivity.
Qed.

Lemma prompt_overwrite_or_rename_witness :
  outcome (check_output_file
             (directory_world [] always_down_tasks [] true ["yes"; " 2 "; "3"])
             "d/output.md")
  = Ok (Some "d/output_1700000000.md").
Proof.
  destruct (prompt_overwrite_or_rename
              (directory_world [] always_down_tasks [] true ["yes"; " 2 "; "3"])
              "d/output.md" ["yes"] " 2 " ["3"]) as [_ Hrename].
  - reflexivity.
  - reflexivity.
  - repeat constructor.
  - rewrite Hrename; reflexivity.
Defined.

(** X13.  When the input ends before a valid answer is given, [input]
    raises [EOFError]: the run prints the error and exits with status 1,
    having made no request and written no file. *)
Theorem prompt_end_of_input `{E : Externals} (a : args) (w : world) (final : json)
    (key : string) (cv : converter) :
  startup a w = Ready final key cv ->
  discover_html_files w (directory a) <> [] ->
  path_exists w (Path.join (directory a) (output a)) = true ->
  Forall (fun l => valid_choice l = false) (stdin w) ->
  snd (main a w) = SysExit 1
  /\ List.last (fst (main a w)) Acquire = PrintError EOFError
  /\ written (fst (main a w)) = None
  /\ count_calls (fst (main a w)) = 0.
Proof.
  intros Hstart Hfiles Hexists Hjunk.
  pose proof (check_output_file_prints w (Path.join (directory a) (output a))) as Hp.
  assert (Hcheck : outcome (check_output_file w (Path.join (directory a) (output a)))
                   = Raise EOFError).
  { unfold check_output_file. rewrite Hexists.
    pose proof (ask_choice_skips (Path.join (directory a) (output a)) (clock w)
                  (stdin w) [] Hjunk) as Hs.
    rewrite app_nil_r in Hs. rewrite Hs. reflexivity. }
  unfold main. rewrite Hstart. unfold convert_directory.
  destruct (discover_html_files w (directory a)) as [|f fs]; [congruence|].
  destruct (check_output_file w (Path.join (directory a) (output a))) as [t r].
  cbn in Hcheck, Hp. subst r. cbn.
  assert (Hsilent : writes t = [] /\ count_calls t = 0).
  { clear -Hp. unfold count_calls, writes.
    induction Hp as [|e t He _ [IHw IHc]]; [split; reflexivity|].
    destruct e; try discriminate. cbn. split; assumption. }
  destruct Hsilent as [Hw Hc].
  repeat split.
  - apply last_last.
  - unfold written. rewrite writes_app, Hw. reflexivity.
  - unfold count_calls in *. rewrite List.filter_app, length_app, Hc. reflexivity.
Qed.

Lemma prompt_end_of_input_witness :
  snd (@main plain_externals plain_args
         (directory_world [("d/a.html", 1%Q)] always_down_tasks [0] true ["yes"; "no"]))
  = SysExit 1.
Proof.
  refine (proj1 (@prompt_end_of_input plain_externals plain_args _ (JObj ∅) "key"
                   default_converter _ _ _ _)).
  - vm_compute. reflexivity.
  - vm_compute. discriminate.
  - reflexivity.
  - repeat constructor.
Defined.

(* ===================================================================== *)
(** * Further properties: the run as a whole *)
(* ===================================================================== *)

(** X14.  When the titles of the discovered files are pairwise distinct,
    the number of files reported as processed is the number of tasks
    that succeeded, it does not exceed the number of files found, and a
    file whose task failed has no section in the output. *)
Theorem distinct_titles_report `{E : Externals} (cv : converter) (w : world)
    (directory : string) :
  let html_files := discover_html_files w directory in
  let tasks := make_tasks cv w html_files in
  let ordered := final_results cv w directory in
  completion w ≡ₚ seq 0 (length html_files) ->
  NoDup (map (fun entry => title_of (fst entry)) html_files) ->
  length ordered = length (own_results tasks)
  /\ length ordered <= length html_files
  /\ (forall i entry,
        html_files !! i = Some entry ->
        result_of (process_file cv w (fst entry) (length html_files) i) = None ->
        title_of (fst entry) ∉ map fst ordered).
Proof.
  intros html_files tasks ordered Hperm Hnd.
  assert (Hown : ordered = own_results tasks).
  { apply (ordered_results_own cv w html_files (completion w) Hperm Hnd). }
  rewrite Hown. split; [reflexivity|]. split.
  - pose proof (sublist_length _ _ (own_titles_sublist cv w html_files)) as Hlen.
    rewrite !length_map in Hlen. exact Hlen.
  - intros i entry Hi Hfail Hin.
    apply list_elem_of_In, in_map_iff in Hin as (r & Hr & Hin).
    apply list_elem_of_In, elem_of_own_results in Hin as (j & entry' & Hj & Hrj).
    pose proof (process_file_title _ _ _ _ _ _ Hrj) as Ht.
    assert (i = j) as <-.
    { eapply NoDup_lookup; [exact Hnd| |].
      - rewrite list_lookup_fmap, Hi. reflexivity.
      - rewrite list_lookup_fmap, Hj. cbn. congruence. }
    fold html_files in Hj. rewrite Hi in Hj. injection Hj as <-. congruence.
Qed.

Lemma distinct_titles_report_witness :
  length (final_results default_converter three_files_one_down "d") = 2
  /\ "a" ∉ map fst (final_results default_converter three_files_one_down "d").
Proof.
  destruct (@distinct_titles_report plain_externals default_converter
              three_files_one_down "d") as (Hlen & _ & Habsent).
  - change ([2; 0; 1] ≡ₚ [0; 1; 2]).
    apply (Permutation_cons_app [0; 1] [] 2). reflexivity.
  - apply (bool_decide_unpack _). vm_compute. exact I.
  - split; [rewrite Hlen; reflexivity|].
    apply (Habsent 0 ("d/a.html", 1%Q)); reflexivity.
Defined.

Section Budget.

Context `{E : Externals}.
Variable cv : converter.
Variable w : world.

Let m : nat := Z.to_nat (max_retries (api_client cv)).

Lemma prints_cost_nothing (t : list event) :
  Forall (fun e => is_print e = true) t ->
  count_calls t = 0 /\ count_permits t = 0.
Proof.
  unfold count_calls, count_permits.
  induction 1 as [|e t He _ [IHc IHp]]; [split; reflexivity|].
  destruct e; try discriminate. cbn. split; assumption.
Qed.

Lemma count_calls_app (t1 t2 : list event) :
  count_calls (t1 ++ t2) = count_calls t1 + count_calls t2.
Proof. unfold count_calls. rewrite List.filter_app, length_app. reflexivity. Qed.

Lemma count_permits_app (t1 t2 : list event) :
  count_permits (t1 ++ t2) = count_permits t1 + count_permits t2.
Proof. unfold count_permits. rewrite List.filter_app, length_app. reflexivity. Qed.

(** A task takes at most one permit and makes at most [max_retries]
    requests; it does neither when its file cannot be read. *)
Lemma process_file_budget (file_path : string) (total i : nat) :
  count_calls (events (process_file cv w file_path total i)) <= m
  /\ count_permits (events (process_file cv w file_path total i)) <= 1
  /\ (forall e, read_text w file_path = Raise e ->
        process_file cv w file_path total i = ([], Raise e)).
Proof.
  unfold process_file, lift, mbind, io_bind, mret, io_ret.
  destruct (read_text w file_path) as [html_content|e].
  2:{ split; [cbn; lia|]. split; [cbn; lia|]. intros e0 [= <-]. reflexivity. }
  destruct (convert_one_permit (api_client cv) (remote w i)
              (clean_html (remove_tags cv) html_content) (Path.name file_path))
    as (t & He & Ha & Hc).
  destruct (convert_html_to_markdown _ _ _ _) as [tc [markdown|e]];
    cbn [events fst] in He; subst tc; cbn [app events fst];
    rewrite ?app_nil_r; unfold count_calls, count_permits;
    cbn [List.filter is_call is_acquire length]; rewrite Ha; cbn [length];
    (split; [exact Hc|]); (split; [lia|]); intros e0 [=].
Qed.

Lemma collect_budget (tasks : list (io conversion)) (total : nat) (order : list nat) :
  (forall task, task ∈ tasks ->
     count_calls (events task) <= m /\ count_permits (events task) <= 1) ->
  forall (acc : list conversion) (completed : nat),
  count_calls (events (collect tasks total order acc completed)) <= length order * m
  /\ count_permits (events (collect tasks total order acc completed)) <= length order.
Proof.
  intros Htasks. induction order as [|i order IH]; intros acc completed.
  - cbn. split; lia.
  - cbn [collect length].
    destruct (tasks !! i) as [[tc rc]|] eqn:Hi.
    2:{ destruct (IH acc completed) as [IHc IHp]. split; lia. }
    destruct (Htasks (tc, rc)) as [Hc Hp].
    { apply list_elem_of_lookup. eauto. }
    cbn [events fst] in Hc, Hp.
    destruct rc as [result|e]; cbn.
    + destruct (IH (acc ++ [result]) (S completed)) as [IHc IHp].
      destruct (collect tasks total order (acc ++ [result]) (S completed)) as [t r].
      cbn [events fst] in *. rewrite app_nil_r.
      change (tc ++ Print ?l :: t) with (tc ++ [Print l] ++ t).
      rewrite count_calls_app, count_permits_app. cbn [app].
      change (count_calls (Print ?l :: t)) with (count_calls t).
      change (count_permits (Print ?l :: t)) with (count_permits t).
      split; lia.
    + destruct (IH acc completed) as [IHc IHp].
      destruct (collect tasks total order acc completed) as [t r].
      cbn [events fst] in *. rewrite app_nil_r.
      rewrite count_calls_app, count_permits_app. split; lia.
Qed.

End Budget.

Lemma convert_directory_counts `{E : Externals} (cv : converter) (w : world)
    (directory output_file : string) :
  let run := convert_directory cv w directory output_file in
  count_calls (events run)
    <= length (completion w) * Z.to_nat (max_retries (api_client cv))
  /\ count_permits (events run) <= length (completion w).
Proof.
  intros run. subst run. unfold convert_directory.
  destruct (discover_html_files w directory) as [|f fs] eqn:Hd.
  { cbn. split; lia. }
  pose proof (check_output_file_prints w (Path.join directory output_file)) as Hp.
  destruct (check_output_file w (Path.join directory output_file)) as [t0 r0].
  cbn [events fst] in Hp. apply prints_cost_nothing in Hp as [Hc0 Hp0].
  unfold mbind, io_bind, mret, io_ret.
  destruct r0 as [[output_path|]|e].
  2:{ cbn [events fst]. rewrite app_nil_r, Hc0, Hp0. split; lia. }
  2:{ cbn [events fst]. rewrite Hc0, Hp0. split; lia. }
  pose proof (collect_budget cv (make_tasks cv w (f :: fs)) (length (f :: fs))
                (completion w)) as Hcollect.
  specialize (Hcollect ltac:(
    intros task Hin; apply list_elem_of_lookup in Hin as [i Hi];
    rewrite make_tasks_lookup in Hi;
    destruct ((f :: fs) !! i) as [entry|]; [|discriminate];
    injection Hi as <-;
    destruct (process_file_budget cv w (fst entry) (length (f :: fs)) i)
      as (H1 & H2 & _); split; assumption) [] 0).
  destruct Hcollect as [Hcc Hcp].
  cbn [emit].
  destruct (collect _ _ _ _ _) as [tc rc]. cbn [events fst] in Hcc, Hcp.
  destruct rc as [processed|e].
  2:{ cbn [events fst]. rewrite count_calls_app, count_permits_app, Hc0, Hp0.
      change (count_calls ([Print ?l] ++ tc)) with (count_calls tc).
      change (count_permits ([Print ?l] ++ tc)) with (count_permits tc).
      split; lia. }
  unfold generate_output.
  destruct (write_results _ _ _ _) as [text [[]|e]]; cbn [events fst].
  all: rewrite count_calls_app, count_permits_app, Hc0, Hp0.
  all: change (count_calls ([Print ?l] ++ ?t)) with (count_calls t).
  all: change (count_permits ([Print ?l] ++ ?t)) with (count_permits t).
  all: rewrite count_calls_app, count_permits_app.
  all: first
    [ change (count_calls ([Write ?p ?x] ++ [Print ?y] ++ [Print ?z])) with 0;
      change (count_permits ([Write ?p ?x] ++ [Print ?y] ++ [Print ?z])) with 0
    | change (count_calls [Write ?p ?x]) with 0;
      change (count_permits [Write ?p ?x]) with 0 ].
  all: rewrite !Nat.add_0_l, !Nat.add_0_r; split; assumption.
Qed.

(** X15.  A run takes at most one permit of the rate limiter per file
    found and makes at most [max_retries] requests per file found. *)
Theorem run_call_budget `{E : Externals} (cv : converter) (w : world)
    (directory output_file : string) :
  let found := length (discover_html_files w directory) in
  let run := convert_directory cv w directory output_file in
  completion w ≡ₚ seq 0 found ->
  count_calls (events run) <= found * Z.to_nat (max_retries (api_client cv))
  /\ count_permits (events run) <= found.
Proof.
  intros found run Hperm.
  destruct (convert_directory_counts cv w directory output_file) as [Hc Hp].
  rewrite (Permutation_length Hperm), length_seq in Hc, Hp.
  split; assumption.
Qed.

Lemma run_call_budget_witness :
  count_calls (events (@convert_directory plain_externals default_converter
                         three_files_one_down "d" "output.md")) <= 9
  /\ count_permits (events (@convert_directory plain_externals default_converter
                         three_files_one_down "d" "output.md")) <= 3.
Proof.
  apply (@run_call_budget plain_externals default_converter three_files_one_down
           "d" "output.md").
  change ([2; 0; 1] ≡ₚ [0; 1; 2]).
  apply (Permutation_cons_app [0; 1] [] 2). reflexivity.
Defined.

Section NoAttempts.

Context `{E : Externals}.
Variable cv : converter.
Variable w : world.
Hypothesis no_attempts : (max_retries (api_client cv) <= 0)%Z.

(** Without attempts a task that reads its file returns its title and no
    body. *)
Lemma process_file_no_attempts (file_path : string) (total i : nat) :
  result_of (process_file cv w file_path total i) =
  match read_text w file_path with
  | Ok _ => Some (title_of file_path, None)
  | Raise _ => None
  end.
Proof.
  unfold result_of, process_file, lift, mbind, io_bind, mret, io_ret.
  destruct (read_text w file_path) as [html_content|e]; [|reflexivity].
  unfold convert_html_to_markdown, range.
  replace (Z.to_nat (max_retries (api_client cv))) with 0 by lia. reflexivity.
Qed.

Lemma own_results_no_body (html_files : list file_entry) (r : conversion) :
  r ∈ own_results (make_tasks cv w html_files) -> snd r = None.
Proof.
  intros Hin. apply elem_of_own_results in Hin as (i & entry & _ & Hr).
  rewrite process_file_no_attempts in Hr.
  destruct (read_text w (fst entry)); [|discriminate].
  injection Hr as <-. reflexivity.
Qed.

End NoAttempts.

(** The run after the output path is settled ends as [generate_output]
    ends. *)
Lemma convert_directory_outcome `{E : Externals} (cv : converter) (w : world)
    (directory output_file : string) (t0 : list event) (output_path : string) :
  discover_html_files w directory <> [] ->
  check_output_file w (Path.join directory output_file) = (t0, Ok (Some output_path)) ->
  let ordered := final_results cv w directory in
  outcome (convert_directory cv w directory output_file) =
  snd (write_results cv (length ordered) 0 ordered).
Proof.
  intros Hfiles Hcheck ordered. unfold convert_directory.
  destruct (discover_html_files w directory) as [|f fs] eqn:Hd; [congruence|].
  rewrite Hcheck.
  destruct (collect_run (make_tasks cv w (f :: fs)) (length (f :: fs)) (completion w))
    with (acc := @nil conversion) (completed := 0) as (tc & Hc & _).
  { intros task Hin. apply list_elem_of_lookup in Hin as [i Hi].
    rewrite make_tasks_lookup in Hi.
    destruct ((f :: fs) !! i) as [entry|]; [|discriminate].
    injection Hi as <-. apply remote_events_silent, process_file_remote_events. }
  cbn [app] in Hc.
  assert (Hordered : ordered =
            ordered_results (f :: fs)
              (completed_results (make_tasks cv w (f :: fs)) (completion w))).
  { subst ordered. unfold final_results. rewrite Hd. reflexivity. }
  unfold mbind, io_bind. cbn [emit]. rewrite Hc. unfold generate_output.
  rewrite <- Hordered.
  destruct (write_results cv (length ordered) 0 ordered) as [text [[]|e]];
    reflexivity.
Qed.

(** X16.  With [max_retries] zero or negative and at least one file that
    can be read, the run makes no request; every task returns no body,
    [generate_output] fails on the first section after writing its
    header, and the process exits with status 1, leaving an output file
    that holds that header only. *)
Theorem run_without_attempts `{E : Externals} (a : args) (w : world) (final : json)
    (key : string) (cv : converter) (t0 : list event) (output_path : string)
    (i : nat) (entry : file_entry) (html_content : string) :
  let html_files := discover_html_files w (directory a) in
  startup a w = Ready final key cv ->
  (max_retries (api_client cv) <= 0)%Z ->
  completion w ≡ₚ seq 0 (length html_files) ->
  check_output_file w (Path.join (directory a) (output a))
    = (t0, Ok (Some output_path)) ->
  html_files !! i = Some entry ->
  read_text w (fst entry) = Ok html_content ->
  snd (main a w) = SysExit 1
  /\ count_calls (fst (main a w)) = 0
  /\ exists title,
       written (fst (main a w)) = Some (output_path, section_header cv title).
Proof.
  intros html_files Hstart Hmax Hperm Hcheck Hi Hread.
  assert (Hfiles : html_files <> []).
  { intros Hnil. rewrite Hnil in Hi. discriminate. }
  set (tasks := make_tasks cv w html_files).
  set (processed := completed_results tasks (completion w)).
  set (ordered := final_results cv w (directory a)).
  assert (Hpp : processed ≡ₚ own_results tasks)
    by apply (processed_perm cv w html_files (completion w) Hperm).
  (* every section lacks its body *)
  assert (Hbodies : forall r, r ∈ ordered -> snd r = None).
  { intros r Hin. unfold ordered, final_results, ordered_results in Hin.
    apply list_elem_of_omap in Hin as (entry' & _ & Hlook).
    apply file_to_result_some in Hlook as [Hin _].
    fold html_files tasks processed in Hin. rewrite Hpp in Hin.
    apply (own_results_no_body cv w Hmax html_files r Hin). }
  (* and there is at least one section *)
  assert (Hsome : exists r, r ∈ ordered).
  { assert (Hown : (title_of (fst entry), None) ∈ own_results tasks).
    { apply elem_of_own_results. exists i, entry. split; [exact Hi|].
      rewrite (process_file_no_attempts cv w Hmax), Hread. reflexivity. }
    rewrite <- Hpp in Hown.
    assert (Htitle : title_of (fst entry) ∈ map fst processed).
    { apply list_elem_of_In, in_map_iff. eexists. split; [|apply list_elem_of_In, Hown].
      reflexivity. }
    apply file_to_result_is_some in Htitle as [r Hr].
    exists r. unfold ordered, final_results, ordered_results.
    apply list_elem_of_omap. exists entry. split; [|exact Hr].
    apply list_elem_of_lookup. eauto. }
  destruct ordered as [|[title body] rest] eqn:Hordered.
  { destruct Hsome as [r Hr]. inversion Hr. }
  assert (body = None) as -> by (apply (Hbodies (title, body)); left).
  pose proof (convert_directory_writes cv w (directory a) (output a) t0 output_path
                Hfiles Hcheck) as [Hwritten _].
  pose proof (convert_directory_outcome cv w (directory a) (output a) t0 output_path
                Hfiles Hcheck) as Hout.
  pose proof (convert_directory_counts cv w (directory a) (output a)) as [Hcalls _].
  cbv zeta in Hwritten, Hout, Hcalls. fold ordered in Hwritten, Hout.
  rewrite Hordered in Hwritten, Hout.
  cbn [write_results fst snd] in Hwritten, Hout.
  fold (section_header cv title) in Hwritten.
  replace (Z.to_nat (max_retries (api_client cv))) with 0 in Hcalls by lia.
  rewrite Nat.mul_0_r in Hcalls.
  unfold main. rewrite Hstart.
  destruct (convert_directory cv w (directory a) (output a)) as [t r].
  cbn [events outcome fst snd] in Hwritten, Hout, Hcalls. subst r.
  cbn [fst snd]. split; [reflexivity|]. split.
  - rewrite count_calls_app. change (count_calls [PrintError _]) with 0. lia.
  - exists title. unfold written in *. rewrite writes_app.
    change (writes [PrintError AttributeError]) with (@nil (string * string)).
    rewrite app_nil_r. exact Hwritten.
Qed.

Lemma run_without_attempts_witness :
  snd (@main plain_externals plain_args no_retries_world) = SysExit 1
  /\ count_calls (fst (@main plain_externals plain_args no_retries_world)) = 0
  /\ written (fst (@main plain_externals plain_args no_retries_world))
     = Some ("d/output.md", ("# a" ++ nl ++ nl)%string).
Proof.
  destruct (startup plain_args no_retries_world) as [t status|final key cv] eqn:Hstart;
    [vm_compute in Hstart; discriminate|].
  destruct (@run_without_attempts plain_externals plain_args no_retries_world
              final key cv [] "d/output.md" 0 ("d/a.html", 1%Q) "<p>d/a.html</p>" Hstart)
    as (Hexit & Hcalls & title & Hwritten).
  - vm_compute in Hstart. injection Hstart as _ _ <-. vm_compute. discriminate.
  - reflexivity.
  - reflexivity.
  - reflexivity.
  - reflexivity.
  - split; [exact Hexit|]. split; [exact Hcalls|]. vm_compute. reflexivity.
Defined.

(* ===================================================================== *)
(** * Further properties: the derived title *)
(* ===================================================================== *)

Section Underscores.

Let under (s : string) : string := Py.replace "_" " " s.

Lemma under_char_eqb (c x : ascii) :
  x <> "_"%char -> x <> " "%char ->
  Ascii.eqb (if Ascii.eqb c "_" then " "%char else c) x = Ascii.eqb c x.
Proof.
  intros Hu Hs. destruct (Ascii.eqb_spec c "_") as [->|Hc]; [|reflexivity].
  rewrite (proj2 (Ascii.eqb_neq _ _)) by congruence.
  rewrite (proj2 (Ascii.eqb_neq _ _)) by congruence. reflexivity.
Qed.

Lemma under_idem (s : string) : under (under s) = under s.
Proof.
  unfold under. induction s as [|c s IH]; [reflexivity|]. cbn [Py.replace].
  rewrite IH. destruct (Ascii.eqb_spec c "_") as [->|Hc]; [reflexivity|].
  rewrite (proj2 (Ascii.eqb_neq _ _) Hc). reflexivity.
Qed.

Lemma under_split (s : string) :
  Py.split "/" (under s) = map under (Py.split "/" s).
Proof.
  unfold under. induction s as [|c s IH]; [reflexivity|].
  cbn [Py.replace Py.split]. rewrite under_char_eqb by discriminate.
  destruct (Ascii.eqb c "/"); [cbn [map]; rewrite IH; reflexivity|].
  rewrite IH. destruct (Py.split "/" s); reflexivity.
Qed.

Lemma under_eqb_short (s x : string) :
  x = "" \/ x = "." -> String.eqb (under s) x = String.eqb s x.
Proof.
  unfold under. intros [->| ->].
  - destruct s; reflexivity.
  - destruct s as [|c s]; [reflexivity|]. cbn [Py.replace].
    change (String.eqb (String ?a ?r) ".")
      with (if Ascii.eqb a "." then String.eqb r "" else false).
    rewrite under_char_eqb by discriminate.
    destruct s; reflexivity.
Qed.

Lemma filter_map_comm {A B} (f : A -> B) (P : B -> bool) (Q : A -> bool)
    (l : list A) :
  (forall x, P (f x) = Q x) ->
  List.filter P (map f l) = map f (List.filter Q l).
Proof.
  intros HPQ. induction l as [|x l IH]; [reflexivity|]. cbn [map List.filter].
  rewrite HPQ, IH. destruct (Q x); reflexivity.
Qed.

Lemma last_map_comm {A B} (f : A -> B) (l : list A) (d : A) :
  List.last (map f l) (f d) = f (List.last l d).
Proof.
  induction l as [|x l IH]; [reflexivity|].
  destruct l as [|y l]; [reflexivity|]. exact IH.
Qed.

Lemma under_name (p : string) : Path.name (under p) = under (Path.name p).
Proof.
  unfold Path.name, Path.parts. rewrite under_split.
  rewrite (filter_map_comm under _
             (fun x => negb (String.eqb x "" || String.eqb x "."))).
  - apply (last_map_comm under _ "").
  - intros x. rewrite !under_eqb_short by auto. reflexivity.
Qed.

Lemma under_rfind (s : string) : Py.rfind "." (under s) = Py.rfind "." s.
Proof.
  unfold under. induction s as [|c s IH]; [reflexivity|].
  cbn [Py.replace Py.rfind]. rewrite IH, under_char_eqb by discriminate.
  reflexivity.
Qed.

Lemma under_length (s : string) : String.length (under s) = String.length s.
Proof.
  unfold under. induction s as [|c s IH]; [reflexivity|].
  cbn [Py.replace String.length]. rewrite IH. reflexivity.
Qed.

Lemma under_take (n : nat) (s : string) : Py.take n (under s) = under (Py.take n s).
Proof.
  unfold under. revert s. induction n as [|n IH]; intros [|c s]; try reflexivity.
  cbn [Py.replace Py.take]. rewrite IH. reflexivity.
Qed.

(** Replacing the underscores goes through the removal of the extension. *)
Lemma under_stem (p : string) : Path.stem (under p) = under (Path.stem p).
Proof.
  unfold Path.stem. rewrite under_name, under_rfind, under_length.
  destruct (Py.rfind "." (Path.name p)) as [i|]; [|reflexivity].
  destruct ((0 <? i) && (i + 1 <? String.length (Path.name p)))%nat;
    [apply under_take|reflexivity].
Qed.

End Underscores.

(** X17.  The title does not tell underscores from spaces: a file name
    and the same name with its underscores replaced by spaces have the
    same title. *)
Theorem title_ignores_underscores `{E : Externals} (filename : string) :
  clean_filename (Py.replace "_" " " filename) = clean_filename filename.
Proof.
  unfold clean_filename. rewrite under_stem, under_idem. reflexivity.
Qed.

Section Spacing.

Lemma collapse_loosely_spaced (s : string) : forall b,
  loosely_spaced b (Py.collapse_from b s) = true.
Proof.
  induction s as [|c s IH]; intros b; [reflexivity|]. cbn [Py.collapse_from].
  destruct (Py.isspace c) eqn:Hc.
  - destruct b; [apply IH|].
    cbn [loosely_spaced]. change (Py.isspace " ") with true. cbv iota.
    rewrite IH. reflexivity.
  - cbn [loosely_spaced]. rewrite Hc.
    destruct b; apply IH.
Qed.

Lemma loosely_spaced_weaken (s : string) :
  loosely_spaced true s = true -> loosely_spaced false s = true.
Proof.
  destruct s as [|c s]; [reflexivity|]. cbn [loosely_spaced].
  destruct (Py.isspace c); [|exact id].
  rewrite andb_false_r. discriminate.
Qed.

Lemma loosely_spaced_lstrip (s : string) (b : bool) :
  loosely_spaced b s = true -> loosely_spaced true (Py.lstrip s) = true.
Proof.
  destruct s as [|c s]; [reflexivity|]. cbn [loosely_spaced Py.lstrip].
  destruct (Py.isspace c) eqn:Hc.
  - intros Hs. apply andb_true_iff in Hs as [_ Hs].
    destruct s as [|d s]; [reflexivity|]. cbn [loosely_spaced Py.lstrip] in Hs |- *.
    destruct (Py.isspace d) eqn:Hd.
    + rewrite andb_false_r in Hs. discriminate.
    + cbn [loosely_spaced]. rewrite Hd. exact Hs.
  - intros Hs. cbn [loosely_spaced]. rewrite Hc. exact Hs.
Qed.

Lemma spaced_tail_cons (b : bool) (c : ascii) (s : string) :
  spaced_tail b (String c s) =
  if Py.isspace c then Ascii.eqb c " " && negb b && spaced_tail true s
  else spaced_tail false s.
Proof. reflexivity. Qed.

Lemma loosely_spaced_rstrip (s : string) : forall b,
  loosely_spaced b s = true ->
  Py.rstrip s = "" \/ spaced_tail b (Py.rstrip s) = true.
Proof.
  induction s as [|c s IH]; intros b Hs; [left; reflexivity|].
  cbn [loosely_spaced] in Hs. cbn [Py.rstrip].
  destruct (Py.isspace c) eqn:Hc.
  - apply andb_true_iff in Hs as [Hcb Hs].
    destruct (IH true Hs) as [Hr|Hr].
    + rewrite Hr. left. reflexivity.
    + destruct (Py.rstrip s) as [|d r] eqn:Hrs; [discriminate Hr|].
      right. rewrite spaced_tail_cons, Hc, Hcb, Hr. reflexivity.
  - destruct (Py.rstrip s) as [|d r] eqn:Hrs.
    + right. rewrite spaced_tail_cons, Hc. reflexivity.
    + right. rewrite spaced_tail_cons, Hc.
      destruct (IH false Hs) as [Hr|Hr]; [discriminate Hr|exact Hr].
Qed.

End Spacing.

(** X18.  In a title every whitespace character is a single space
    between two other characters: a title has no leading or trailing
    whitespace, no tab or line break, and no two spaces in a row. *)
Theorem title_single_spaced `{E : Externals} (filename : string) :
  single_spaced (clean_filename filename) = true.
Proof.
  unfold clean_filename, Py.strip, Py.collapse_ws, single_spaced.
  set (name := Py.remove_chars special_chars _).
  pose proof (collapse_loosely_spaced name false) as Hc.
  apply loosely_spaced_lstrip in Hc.
  apply loosely_spaced_rstrip in Hc as [-> | ->]; [reflexivity|reflexivity].
Qed.

Section Extension.

Lemma mem_append (c : ascii) (a b : string) :
  Py.mem c (a ++ b)%string = Py.mem c a || Py.mem c b.
Proof.
  induction a as [|x a IH]; [reflexivity|].
  change (Py.mem c (String x (a ++ b)%string) = Py.mem c (String x a) || Py.mem c b).
  cbn [Py.mem]. rewrite IH, orb_assoc. reflexivity.
Qed.

Lemma rfind_append (c : ascii) (a b : string) (i : nat) :
  Py.rfind c b = Some i ->
  Py.rfind c (a ++ b)%string = Some (String.length a + i).
Proof.
  intros Hb. induction a as [|x a IH]; [exact Hb|].
  change (Py.rfind c (String x (a ++ b)%string) = Some (S (String.length a + i))).
  cbn [Py.rfind]. rewrite IH. reflexivity.
Qed.

Lemma take_append (a b : string) : Py.take (String.length a) (a ++ b)%string = a.
Proof.
  induction a as [|x a IH]; [destruct b; reflexivity|].
  change (Py.take (S (String.length a)) (String x (a ++ b)%string) = String x a).
  cbn [Py.take]. rewrite IH. reflexivity.
Qed.

Lemma length_append (a b : string) :
  String.length (a ++ b)%string = String.length a + String.length b.
Proof.
  induction a as [|x a IH]; [reflexivity|].
  change (S (String.length (a ++ b)%string) = S (String.length a + String.length b)).
  rewrite IH. reflexivity.
Qed.

End Extension.

(** X19.  Of a file name that ends in [.html], with a name before it and
    no slash, only that extension is dropped: the dots inside the name
    stay. *)
Theorem stem_drops_html (name : string) :
  name <> "" ->
  Py.mem "/" name = false ->
  Path.stem (name ++ ".html") = name.
Proof.
  intros Hname Hslash.
  assert (Hn : Path.name (name ++ ".html") = (name ++ ".html")%string).
  { unfold Path.name, Path.parts. rewrite split_no_sep.
    - cbn [List.filter].
      assert (Hne : forall x, String.length x <= 1 ->
                String.eqb (name ++ ".html") x = false).
      { intros x Hx. apply String.eqb_neq. intros Heq.
        apply (f_equal String.length) in Heq. rewrite length_append in Heq.
        cbn in Heq. lia. }
      rewrite !Hne by (cbn; lia). reflexivity.
    - rewrite mem_append, Hslash. reflexivity. }
  unfold Path.stem. rewrite Hn.
  rewrite (rfind_append "." name ".html" 0) by reflexivity.
  rewrite length_append, Nat.add_0_r.
  assert (Hlen : 0 < String.length name) by (destruct name; [congruence|cbn; lia]).
  rewrite (proj2 (Nat.ltb_lt _ _) Hlen).
  rewrite (proj2 (Nat.ltb_lt _ _)) by (cbn; lia).
  apply take_append.
Qed.

Lemma stem_drops_html_witness : Path.stem "report.v2.html" = "report.v2".
Proof. apply (stem_drops_html "report.v2"); [discriminate|reflexivity]. Defined.

(** X20.  Discovery keeps, among the files of one modification time, the
    order of the directory listing. *)
Theorem discover_keeps_listing_order (w : world) (directory : string) (t : Q) :
  dir_exists w directory = true ->
  List.filter (fun f => Qeq_bool (snd f) t) (discover_html_files w directory) =
  List.filter (fun f => Qeq_bool (snd f) t) (glob_html w directory).
Proof.
  intros Hd. unfold discover_html_files. rewrite Hd. apply sort_by_mtime_stable.
Qed.

Lemma discover_keeps_listing_order_witness :
  List.filter (fun f => Qeq_bool (snd f) 1%Q)
    (discover_html_files
       (directory_world [("d/z.html", 1%Q); ("d/m.html", 0%Q); ("d/a.html", 1%Q)]
          always_down_tasks [] false []) "d")
  = [("d/z.html", 1%Q); ("d/a.html", 1%Q)].
Proof.
  rewrite discover_keeps_listing_order; reflexivity.
Defined.

(* ===================================================================== *)
(** * Further properties: matching results to files *)
(* ===================================================================== *)

(** X21.  Of several gathered results with one title the mapping keeps
    the one gathered last. *)
Theorem file_to_result_last_wins (before after : list conversion) (r : conversion) :
  fst r ∉ map fst after ->
  file_to_result (before ++ r :: after) !! fst r = Some r.
Proof.
  intros Hafter. unfold file_to_result.
  rewrite fold_left_app. cbn [fold_left].
  rewrite fold_insert_other by exact Hafter. apply lookup_insert_eq.
Qed.

Lemma file_to_result_last_wins_witness :
  file_to_result [("a b", Some "first"); ("c", Some "other"); ("a b", Some "second")]
    !! "a b" = Some ("a b", Some "second").
Proof.
  apply (file_to_result_last_wins [("a b", Some "first"); ("c", Some "other")] []
           ("a b", Some "second")).
  cbn. apply not_elem_of_nil.
Defined.

(** X22.  Whatever the titles, every section of the output is the result
    of a file that was converted, under the title of that file, and the
    title of every converted file is the title of some section. *)
Theorem sections_are_results `{E : Externals} (cv : converter) (w : world)
    (directory : string) :
  let html_files := discover_html_files w directory in
  let tasks := make_tasks cv w html_files in
  let ordered := final_results cv w directory in
  completion w ≡ₚ seq 0 (length html_files) ->
  (forall r, r ∈ ordered -> r ∈ own_results tasks)
  /\ (forall r, r ∈ own_results tasks -> fst r ∈ map fst ordered).
Proof.
  intros html_files tasks ordered Hperm.
  pose proof (processed_perm cv w html_files (completion w) Hperm) as Hpp.
  fold tasks in Hpp. split.
  - intros r Hin. unfold ordered, final_results, ordered_results in Hin.
    apply list_elem_of_omap in Hin as (entry & _ & Hlook).
    apply file_to_result_some in Hlook as [Hin _].
    fold html_files tasks in Hin. rewrite Hpp in Hin. exact Hin.
  - intros r Hin.
    pose proof Hin as Hown.
    apply elem_of_own_results in Hown as (i & entry & Hi & Hr).
    pose proof (process_file_title _ _ _ _ _ _ Hr) as Htitle.
    rewrite <- Hpp in Hin.
    assert (Hknown : fst r ∈ map fst (completed_results tasks (completion w))).
    { apply list_elem_of_In, in_map, list_elem_of_In, Hin. }
    apply file_to_result_is_some in Hknown as [r' Hr'].
    pose proof (file_to_result_some _ _ _ Hr') as [_ Hfst].
    rewrite <- Hfst. apply list_elem_of_In, in_map, list_elem_of_In.
    unfold ordered, final_results, ordered_results. fold html_files tasks.
    apply list_elem_of_omap. exists entry. split.
    + apply list_elem_of_lookup. eauto.
    + rewrite <- Htitle. exact Hr'.
Qed.

Lemma sections_are_results_witness :
  ("a b", Some "second") ∈ own_results
     (make_tasks default_converter colliding_files
        (discover_html_files colliding_files "d")).
Proof.
  destruct (@sections_are_results plain_externals default_converter colliding_files "d")
    as [Hsound _].
  - reflexivity.
  - apply Hsound. vm_compute. left.
Defined.

Lemma ordered_results_nothing `{E : Externals} (html_files : list file_entry) :
  ordered_results html_files [] = [].
Proof.
  unfold ordered_results.
  change (file_to_result []) with (∅ : gmap string conversion).
  induction html_files as [|x l IH]; [reflexivity|].
  change (omap ?g (?a :: ?r)) with
    (match g a with Some y => y :: omap g r | None => omap g r end).
  cbv beta. rewrite lookup_empty. exact IH.
Qed.

(** X23.  When no task succeeds the run is not an error: it writes an
    empty output file, reports 0 files processed out of the number
    found, and the process ends normally. *)
Theorem all_tasks_fail `{E : Externals} (a : args) (w : world) (final : json)
    (key : string) (cv : converter) (t0 : list event) (output_path : string) :
  let html_files := discover_html_files w (directory a) in
  startup a w = Ready final key cv ->
  html_files <> [] ->
  completion w ≡ₚ seq 0 (length html_files) ->
  check_output_file w (Path.join (directory a) (output a))
    = (t0, Ok (Some output_path)) ->
  own_results (make_tasks cv w html_files) = [] ->
  snd (main a w) = Returned
  /\ written (fst (main a w)) = Some (output_path, "")
  /\ List.last (stdout (fst (main a w))) ""
     = ("Successfully processed 0 out of " ++ Py.str_of_nat (length html_files)
        ++ " files.")%string.
Proof.
  intros html_files Hstart Hfiles Hperm Hcheck Hown.
  pose proof (processed_perm cv w html_files (completion w) Hperm) as Hpp.
  rewrite Hown in Hpp. apply Permutation_nil_r in Hpp.
  assert (Hordered : final_results cv w (directory a) = []).
  { unfold final_results. fold html_files. rewrite Hpp. apply ordered_results_nothing. }
  pose proof (convert_directory_writes cv w (directory a) (output a) t0 output_path
                Hfiles Hcheck) as [Hwritten Hreport].
  cbv zeta in Hwritten, Hreport. rewrite Hordered in Hwritten, Hreport.
  cbn [write_results length fst snd] in Hwritten, Hreport.
  destruct (Hreport eq_refl) as [Hout Hlast]. fold html_files in Hlast.
  unfold main. rewrite Hstart.
  destruct (convert_directory cv w (directory a) (output a)) as [t r].
  cbn [events outcome fst snd] in Hwritten, Hout, Hlast. subst r.
  cbn [fst snd]. repeat split; assumption.
Qed.

Lemma all_tasks_fail_witness :
  snd (@main plain_externals plain_args
         (directory_world [("d/a.html", 1%Q)] always_down_tasks [0] false []))
  = Returned.
Proof.
  refine (proj1 (@all_tasks_fail plain_externals plain_args _ (JObj ∅) "key"
                   default_converter [] "d/output.md" _ _ _ _ _)).
  - vm_compute. reflexivity.
  - vm_compute. discriminate.
  - reflexivity.
  - reflexivity.
  - vm_compute. reflexivity.
Defined.

(* ===================================================================== *)
(** * Further properties: the order of the sections *)
(* ===================================================================== *)

(** X24.  When the titles of the discovered files are pairwise distinct
    and the converted files have a body, the output file holds, whatever
    the order of completion, the sections of the converted files in the
    order of discovery (ascending modification times), each file with
    its own result, joined by the separator line. *)
Theorem distinct_titles_output_in_order `{E : Externals} (cv : converter) (w : world)
    (directory output_file : string) (t0 : list event) (output_path : string)
    (results : list (string * string)) :
  let html_files := discover_html_files w directory in
  let tasks := make_tasks cv w html_files in
  let run := convert_directory cv w directory output_file in
  completion w ≡ₚ seq 0 (length html_files) ->
  NoDup (map (fun entry => title_of (fst entry)) html_files) ->
  html_files <> [] ->
  check_output_file w (Path.join directory output_file) = (t0, Ok (Some output_path)) ->
  own_results tasks = map with_body results ->
  StronglySorted mtime_le html_files
  /\ final_results cv w directory = map with_body results
  /\ written (events run) =
     Some (output_path,
           String.concat (separator_text cv) (map (section_text cv) results))
  /\ outcome run = Ok tt.
Proof.
  intros html_files tasks run Hperm Hnd Hfiles Hcheck Hown.
  assert (Hordered : final_results cv w directory = map with_body results).
  { rewrite <- Hown.
    apply (ordered_results_own cv w html_files (completion w) Hperm Hnd). }
  pose proof (convert_directory_writes cv w directory output_file t0 output_path
                Hfiles Hcheck) as [Hwritten Hreport].
  cbv zeta in Hwritten, Hreport. rewrite Hordered, length_map in Hwritten, Hreport.
  pose proof (write_results_join cv results 0) as Hjoin. cbn [Nat.add] in Hjoin.
  rewrite Hjoin in Hwritten, Hreport. cbn [fst snd] in Hwritten, Hreport.
  split; [apply discover_sorted|]. split; [exact Hordered|].
  split; [exact Hwritten|]. apply Hreport. reflexivity.
Qed.

Lemma distinct_titles_output_in_order_witness :
  written (events (@convert_directory plain_externals default_converter three_files
                     "d" "output.md"))
  = Some ("d/output.md",
          ("# a" ++ nl ++ nl ++ "# A" ++ nl ++ nl ++ "---" ++ nl ++ nl
           ++ "# b" ++ nl ++ nl ++ "# B" ++ nl ++ nl ++ "---" ++ nl ++ nl
           ++ "# c" ++ nl ++ nl ++ "# C" ++ nl ++ nl)%string).
Proof.
  destruct (@distinct_titles_output_in_order plain_externals default_converter
              three_files "d" "output.md" [] "d/output.md"
              [("a", "# A"); ("b", "# B"); ("c", "# C")])
    as (_ & _ & Hwritten & _).
  - change ([2; 0; 1] ≡ₚ [0; 1; 2]).
    apply (Permutation_cons_app [0; 1] [] 2). reflexivity.
  - apply (bool_decide_unpack _). vm_compute. exact I.
  - vm_compute. discriminate.
  - reflexivity.
  - vm_compute. reflexivity.
  - rewrite Hwritten. reflexivity.
Defined.

(** X25.  Whatever the order of completion and whatever the titles, the
    titles of the sections are the titles of the discovered files that
    some converted file bears, in the order of discovery, and that order
    is by ascending modification time. *)
Theorem section_titles_in_discovery_order `{E : Externals} (cv : converter)
    (w : world) (directory : string) :
  let html_files := discover_html_files w directory in
  let tasks := make_tasks cv w html_files in
  completion w ≡ₚ seq 0 (length html_files) ->
  StronglySorted mtime_le html_files
  /\ map fst (final_results cv w directory) =
     List.filter (fun t => bool_decide (t ∈ map fst (own_results tasks)))
                 (map (fun entry => title_of (fst entry)) html_files).
Proof.
  intros html_files tasks Hperm. split; [apply discover_sorted|].
  apply (ordered_titles cv w html_files (completion w) Hperm).
Qed.

Lemma section_titles_in_discovery_order_witness :
  map fst (final_results default_converter three_files_one_down "d") = ["b"; "c"].
Proof.
  destruct (@section_titles_in_discovery_order plain_externals default_converter
              three_files_one_down "d") as [_ Htitles].
  - change ([2; 0; 1] ≡ₚ [0; 1; 2]).
    apply (Permutation_cons_app [0; 1] [] 2). reflexivity.
  - rewrite Htitles. vm_compute. reflexivity.
Defined.
